(** * Huawei MCP catalog tooling: a shallow embedding and its properties

    The development follows the two scripts of the repository:

    - [skills/huawei-mcp-layered/scripts/hierarchy_query.py]: the catalog
      parser ([_extract_rows], [load_hierarchy]), the lookups
      ([list_groups], [list_products], [find_product]), the command
      inference ([infer_server_command]) and the sub-process launch
      ([collect_api]);
    - [mcp_collect.py]: the schema collection ([get_server_schemas]), the
      file writer ([save_schemas_to_file]) and its [main].

    Modelling conventions.  A Python [str] is the [string] of its UTF-8
    bytes.  White space ([str.strip], the class [\s]) and decimal digits
    (the class [\d]) are those of Unicode, read off the code points that the
    bytes encode.  [str.lower] belongs to the Python runtime and is a
    parameter of the functions that call it.  [pathlib.Path] is the POSIX
    flavour.  A Python [dict] whose order is observable is an association
    list with unique keys in insertion order; the file system is a finite
    map from paths to the documents stored there. *)

From Stdlib Require Import Ascii String List Bool Arith ZArith Lia Sorted Permutation.
From stdpp Require Import base option gmap strings.
Import ListNotations.

Set Default Proof Using "Type".
Set Warnings "-register-all".

(** ** Text primitives *)

Module Text.

Definition dquote : ascii := "034"%char.
Definition newline : ascii := "010"%char.
Definition slash : ascii := "/"%char.

(** A continuation byte of UTF-8, and the six bits it carries. *)
Definition cont (c : ascii) : bool :=
  let n := N_of_ascii c in ((128 <=? n) && (n <? 192))%N.

Definition low6 (c : ascii) : N := (N_of_ascii c - 128)%N.

(** The code point whose UTF-8 encoding is at the head of [s], with the
    number of bytes of that encoding; [None] where no well-formed encoding
    starts. *)
Definition code_point (s : string) : option (N * nat) :=
  match s with
  | EmptyString => None
  | String c1 t1 =>
      let b1 := N_of_ascii c1 in
      if (b1 <? 128)%N then Some (b1, 1)
      else if (b1 <? 194)%N then None
      else if (b1 <? 224)%N then
        match t1 with
        | String c2 _ =>
            if cont c2 then Some (((b1 - 192) * 64 + low6 c2)%N, 2) else None
        | EmptyString => None
        end
      else if (b1 <? 240)%N then
        match t1 with
        | String c2 (String c3 _) =>
            let n := ((b1 - 224) * 4096 + low6 c2 * 64 + low6 c3)%N in
            if cont c2 && cont c3 && (2048 <=? n)%N then Some (n, 3) else None
        | _ => None
        end
      else if (b1 <? 245)%N then
        match t1 with
        | String c2 (String c3 (String c4 _)) =>
            let n := ((b1 - 240) * 262144 + low6 c2 * 4096
                      + low6 c3 * 64 + low6 c4)%N in
            if cont c2 && cont c3 && cont c4 && (65536 <=? n)%N && (n <? 1114112)%N
            then Some (n, 4) else None
        | _ => None
        end
      else None
  end.

(** Python's [str.isspace] on one code point, which is also the class
    [\s] and what [str.strip] removes: U+0009 to U+000D, U+001C to U+0020,
    U+0085, U+00A0, U+1680, U+2000 to U+200A, U+2028, U+2029, U+202F,
    U+205F and U+3000. *)
Definition is_space (n : N) : bool :=
  (((9 <=? n) && (n <=? 13)) || ((28 <=? n) && (n <=? 32))
   || (n =? 133) || (n =? 160) || (n =? 5760)
   || ((8192 <=? n) && (n <=? 8202))
   || (n =? 8232) || (n =? 8233) || (n =? 8239) || (n =? 8287)
   || (n =? 12288))%N.

(** The digits zero of the decimal digits of Unicode 14.0 (category Nd,
    the database of Python 3.11); the nine other digits of a script follow
    its zero. *)
Definition digit_zeros : list N :=
  ([48; 1632; 1776; 1984; 2406; 2534; 2662; 2790; 2918; 3046; 3174;
     3302; 3430; 3558; 3664; 3792; 3872; 4160; 4240; 6112; 6160; 6470;
     6608; 6784; 6800; 6992; 7088; 7232; 7248; 42528; 43216; 43264;
     43472; 43504; 43600; 44016; 65296; 66720; 68912; 69734; 69872;
     69942; 70096; 70384; 70736; 70864; 71248; 71360; 71472; 71904;
     72016; 72784; 73040; 73120; 92768; 92864; 93008; 120782; 120792;
     120802; 120812; 120822; 123200; 123632; 125264; 130032])%N.

(** The class [\d] on one code point. *)
Definition is_digit (n : N) : bool :=
  existsb (fun z => ((z <=? n) && (n <? z + 10))%N) digit_zeros.

(** The number of bytes of the code point at the head of [s] when it is
    in the class [f], and 0 otherwise. *)
Definition class_width (f : N -> bool) (s : string) : nat :=
  match code_point s with
  | Some (n, w) => if f n then w else 0
  | None => 0
  end.

(** [s] without its longest prefix of code points of the class [f];
    [skip] counts the bytes still to pass of the code point being
    removed. *)
Fixpoint skip_from (f : N -> bool) (skip : nat) (s : string) : string :=
  match s with
  | EmptyString => EmptyString
  | String c t =>
      match skip with
      | S k => skip_from f k t
      | 0 =>
          match class_width f s with
          | 0 => s
          | S w => skip_from f w t
          end
      end
  end.

Definition skip_class (f : N -> bool) (s : string) : string := skip_from f 0 s.

Fixpoint drop_str (n : nat) (s : string) : string :=
  match n, s with
  | 0, _ => s
  | S k, String _ t => drop_str k t
  | S _, EmptyString => EmptyString
  end.

(** First occurrence of [p] in [s]: the text before it and the text
    after it. *)
Fixpoint find_sub (p s : string) : option (string * string) :=
  if String.prefix p s then Some (EmptyString, drop_str (String.length p) s)
  else match s with
       | EmptyString => None
       | String c t =>
           match find_sub p t with
           | Some (b, a) => Some (String c b, a)
           | None => None
           end
       end.

(** [p in s] *)
Definition contains (p s : string) : bool :=
  match find_sub p s with Some _ => true | None => false end.

(** Longest prefix of [s] made of characters satisfying [f], and the
    rest. *)
Fixpoint span (f : ascii -> bool) (s : string) : string * string :=
  match s with
  | EmptyString => (EmptyString, EmptyString)
  | String c t =>
      if f c then let '(a, b) := span f t in (String c a, b)
      else (EmptyString, s)
  end.

(** [str.lstrip()] *)
Definition lstrip (s : string) : string := skip_class is_space s.

(** [s] is made of white space only. *)
Definition all_space (s : string) : bool := String.eqb (lstrip s) "".

(** [str.rstrip()]: the text up to the point from which only white space
    follows. *)
Fixpoint rstrip (s : string) : string :=
  match s with
  | EmptyString => EmptyString
  | String c t => if all_space s then EmptyString else String c (rstrip t)
  end.

(** [str.strip()] *)
Definition strip (s : string) : string := rstrip (lstrip s).

(** [s.replace(old, '')] for a non-empty [old]: every occurrence, left to
    right, without overlap.  [skip] counts the characters of the
    occurrence being removed that are still to be passed. *)
Fixpoint remove_from (old : string) (skip : nat) (s : string) : string :=
  match s with
  | EmptyString => EmptyString
  | String c t =>
      match skip with
      | S k => remove_from old k t
      | 0 =>
          if String.prefix old s
          then remove_from old (String.length old - 1) t
          else String c (remove_from old 0 t)
      end
  end.

Definition remove_all (old s : string) : string := remove_from old 0 s.

(** Lower case of the letters A to Z, the other bytes unchanged: what
    [str.lower] does on a text of ASCII characters.  It stands for
    [str.lower] where an example is run. *)
Definition lower_char (c : ascii) : ascii :=
  let n := nat_of_ascii c in
  if (65 <=? n) && (n <=? 90) then ascii_of_nat (n + 32) else c.

Fixpoint ascii_lower (s : string) : string :=
  match s with
  | EmptyString => EmptyString
  | String c t => String (lower_char c) (ascii_lower t)
  end.

(** [s.split('/')] *)
Fixpoint split_slash (s : string) : list string :=
  match s with
  | EmptyString => [EmptyString]
  | String c t =>
      if Ascii.eqb c slash then EmptyString :: split_slash t
      else match split_slash t with
           | seg :: segs => String c seg :: segs
           | [] => [String c EmptyString]
           end
  end.

(** [PurePosixPath(s).name]: the last component once empty components
    and [.] components are dropped, the empty string when none is left. *)
Definition path_name (s : string) : string :=
  let parts :=
    filter (fun x => negb (String.eqb x "") && negb (String.eqb x ".")) (split_slash s) in
  default EmptyString (last parts).

End Text.

(** ** The regular expressions of the parser

    Each pattern of [hierarchy_query.py] is a fixed one, so it is embedded
    as the matcher it denotes.  The lazy [.*?] followed by a literal stops
    at the nearest occurrence of that literal; the greedy classes [\s+],
    [\d+] and [[^\x22]+] are followed by a character outside the class, so
    their longest match is their only one; a class match is not empty
    exactly when what is left after it is shorter.  In the comments a pattern is
    written between single quotes and the double quote as [\x22]. *)

Module Re.
Import Text.

(** [re.search('<table.*?</table>', content, flags=re.S)], the matched
    text ([group(0)]). *)
Definition search_table (content : string) : option string :=
  match find_sub "<table" content with
  | None => None
  | Some (_, rest) =>
      match find_sub "</table>" rest with
      | None => None
      | Some (body, _) => Some ("<table" +:+ body +:+ "</table>")
      end
  end.

(** [re.findall('<tr>(.*?)</tr>', table_html, flags=re.S)]: every match
    takes at least one character, so [String.length s] rounds are
    enough. *)
Fixpoint findall_tr_from (fuel : nat) (s : string) : list string :=
  match fuel with
  | 0 => []
  | S k =>
      match find_sub "<tr>" s with
      | None => []
      | Some (_, rest) =>
          match find_sub "</tr>" rest with
          | None => []
          | Some (body, after) => body :: findall_tr_from k after
          end
      end
  end.

Definition findall_tr (s : string) : list string :=
  findall_tr_from (String.length s) s.

(** The opening tag [<td(?:\s+rowspan=\x22\d+\x22)?>] at the head of [s]; the
    text after it. *)
Definition td_open (s : string) : option string :=
  if String.prefix "<td" s then
    match drop_str 3 s with
    | EmptyString => None
    | String c r' as r =>
        if Ascii.eqb c ">" then Some r'
        else
          let r1 := skip_class is_space r in
          if (String.length r1 <? String.length r)
             && String.prefix ("rowspan=" +:+ String dquote "") r1 then
            let r2 := skip_class is_digit (drop_str 9 r1) in
            match r2 with
            | String q (String g r3) =>
                if (String.length r2 <? String.length (drop_str 9 r1))
                   && Ascii.eqb q dquote && Ascii.eqb g ">"
                then Some r3 else None
            | _ => None
            end
          else None
    end
  else None.

(** [re.findall('<td(?:\s+rowspan=\x22\d+\x22)?>(.*?)</td>', row, flags=re.S)] *)
Fixpoint findall_td_from (fuel : nat) (s : string) : list string :=
  match fuel with
  | 0 => []
  | S k =>
      match s with
      | EmptyString => []
      | String _ t =>
          match td_open s with
          | None => findall_td_from k t
          | Some r =>
              match find_sub "</td>" r with
              | None => findall_td_from k t
              | Some (body, after) => body :: findall_td_from k after
              end
          end
      end
  end.

Definition findall_td (s : string) : list string :=
  findall_td_from (String.length s) s.

(** The rest of a tag [<.*?>] once [<] is read: the text after the
    nearest [>], provided no line break comes first (no [re.S] here). *)
Fixpoint tag_close (s : string) : option string :=
  match s with
  | EmptyString => None
  | String c t =>
      if Ascii.eqb c ">" then Some t
      else if Ascii.eqb c newline then None
      else tag_close t
  end.

(** [re.sub('<.*?>', '', col)] *)
Fixpoint sub_tags_from (fuel : nat) (s : string) : string :=
  match fuel with
  | 0 => EmptyString
  | S k =>
      match s with
      | EmptyString => EmptyString
      | String c t =>
          if Ascii.eqb c "<" then
            match tag_close t with
            | Some after => sub_tags_from k after
            | None => String c (sub_tags_from k t)
            end
          else String c (sub_tags_from k t)
      end
  end.

Definition sub_tags (s : string) : string :=
  sub_tags_from (String.length s) s.

(** The group and closing quote [([^\x22]+)\x22] at the head of [s]. *)
Definition quoted_run (s : string) : option string :=
  let '(run, rest) := span (fun c => negb (Ascii.eqb c dquote)) s in
  match rest with
  | String _ _ => if String.eqb run "" then None else Some run
  | EmptyString => None
  end.

(** [re.search('href=\x22([^\x22]+)\x22', row)], its [group(1)]. *)
Fixpoint search_href (s : string) : option string :=
  let here :=
    if String.prefix ("href=" +:+ String dquote "") s
    then quoted_run (drop_str 6 s) else None in
  match here with
  | Some g => Some g
  | None =>
      match s with
      | EmptyString => None
      | String _ t => search_href t
      end
  end.

End Re.

(** ** Python values shared by the two scripts *)

(** A [dict] with [str] keys, in insertion order. *)
Module PyDict.
Section Dict.
Context {V : Type}.

Fixpoint get (k : string) (d : list (string * V)) : option V :=
  match d with
  | [] => None
  | (k', v) :: d' => if String.eqb k' k then Some v else get k d'
  end.

(** [d[k] = v]: an existing key keeps its place. *)
Fixpoint set (k : string) (v : V) (d : list (string * V)) : list (string * V) :=
  match d with
  | [] => [(k, v)]
  | (k', v') :: d' =>
      if String.eqb k' k then (k', v) :: d' else (k', v') :: set k v d'
  end.

Definition keys (d : list (string * V)) : list string := map fst d.

(** Truth value of a [dict]. *)
Definition nonempty (d : list (string * V)) : bool :=
  match d with [] => false | _ :: _ => true end.
End Dict.
End PyDict.

(** The exceptions the scripts raise or let through.  [SessionFailure]
    stands for any exception of class [Exception] raised while the session
    with the server is set up or used (connection failure, protocol error,
    exit of the server process); [KeyboardInterrupt] and [SystemExit] are
    the exceptions outside that class. *)
Inductive exception :=
| RuntimeError (msg : string)
| ValueError (msg : string)
| CalledProcessError (returncode : nat)
| SessionFailure (cause : string)
| KeyboardInterrupt
| SystemExit (code : nat).

(** [isinstance(e, Exception)] *)
Definition is_Exception (e : exception) : bool :=
  match e with
  | KeyboardInterrupt | SystemExit _ => false
  | _ => true
  end.

Inductive result (A : Type) :=
| Return (a : A)
| Raise (e : exception).
Arguments Return {A} a.
Arguments Raise {A} e.

(** Structured documents (what [json.dump] writes). *)
Inductive json :=
| JNull
| JBool (b : bool)
| JNum (n : Z)
| JStr (s : string)
| JArr (items : list json)
| JObj (fields : list (string * json)).

(** Truth value of a document held in a Python variable. *)
Definition json_truthy (j : json) : bool :=
  match j with
  | JNull => false
  | JBool b => b
  | JNum n => negb (Z.eqb n 0)
  | JStr s => negb (String.eqb s "")
  | JArr items => match items with [] => false | _ => true end
  | JObj fields => match fields with [] => false | _ => true end
  end.

(** What the process can observe and change outside itself: the files, by
    path, and the trace of the effects performed so far. *)
Inductive event :=
| Spawned (cmd : list string)
| Wrote (filename : string).

Record world := mkWorld {
  files : gmap string json;
  trace : list event
}.

(** ** [mcp_collect.py] *)

Module McpCollect.

(** A tool object of the upstream library.  [inputSchema] and
    [parameters] are [None] when the object does not expose the
    attribute ([hasattr] is false). *)
Record Tool := mkTool {
  name : string;
  description : json;
  inputSchema : option json;
  parameters : option json
}.

(** What opening the session, initialising it and listing the tools
    comes to. *)
Inductive session_outcome :=
| Listed (tools : list Tool)
| Failed (e : exception).

(** The body of the [for tool in tools_response.tools] loop. *)
Definition add_tool (schemas : list (string * json)) (tool : Tool)
  : list (string * json) :=
  match inputSchema tool with
  | Some schema =>
      if json_truthy schema then
        PyDict.set (name tool)
          (JObj [("description", description tool);
                 ("inputSchema", schema);
                 ("parameters", default (JObj []) (parameters tool))])
          schemas
      else
        PyDict.set (name tool)
          (JObj [("description", description tool); ("inputSchema", JNull)])
          schemas
  | None =>
      PyDict.set (name tool)
        (JObj [("description", description tool); ("inputSchema", JNull)])
        schemas
  end.

Section Collector.
(** The session protocol library, the external collaborator. *)
Variable session : string -> list string -> session_outcome.

Definition get_server_schemas (server_command : string) (args : option (list string))
  : result (list (string * json)) :=
  let args := default [] args in
  match session server_command args with
  | Listed tools => Return (fold_left add_tool tools [])
  | Failed e => if is_Exception e then Return [] else Raise e
  end.

(** [open(filename, 'w')] followed by [json.dump]. *)
Definition save_schemas_to_file (schemas : list (string * json)) (filename : string)
  (w : world) : world :=
  mkWorld (<[filename := JObj schemas]> (files w)) (trace w ++ [Wrote filename]).

(** [main], on the parsed arguments [--command], [--args] and
    [--output]. *)
Definition main (command : string) (args : list string) (output : string) (w : world)
  : result unit * world :=
  match get_server_schemas command (Some args) with
  | Raise e => (Raise e, w)
  | Return schemas =>
      if PyDict.nonempty schemas
      then (Return tt, save_schemas_to_file schemas output w)
      else (Return tt, w)
  end.
End Collector.

End McpCollect.

(** ** [hierarchy_query.py] *)

Module HierarchyQuery.

Record ProductRecord := mkProductRecord {
  group : string;
  product_name : string;
  product_short : string;
  repo_path : option string
}.

(** Truth value of an [Optional[str]]: [None] and the empty string are
    false. *)
Definition truthy (o : option string) : bool :=
  match o with
  | Some s => negb (String.eqb s "")
  | None => false
  end.

(** [o or d] *)
Definition or_else (o : option string) (d : string) : string :=
  match o with
  | Some s => if String.eqb s "" then d else s
  | None => d
  end.

Definition ungrouped : string := "未分组".
Definition marker : string := "mcp-server/tree/master-dev/".

(** [cleaned] of one row: the cells without their markup, stripped. *)
Definition cleaned_cells (row : string) : list string :=
  map (fun col => Text.strip (Re.sub_tags col)) (Re.findall_td row).

(** [repo_path] of one row: what follows the first [marker] in the first
    link target. *)
Definition row_repo_path (row : string) : option string :=
  match Re.search_href row with
  | Some href =>
      match Text.find_sub marker href with
      | Some (_, after) => Some after
      | None => None
      end
  | None => None
  end.

(** One round of the loop of [_extract_rows], on the pair
    [(current_group, products)]. *)
Definition row_step (st : option string * list ProductRecord) (row : string)
  : option string * list ProductRecord :=
  let '(current_group, products) := st in
  match Re.findall_td row with
  | [] => st
  | _ :: _ =>
      let cleaned := cleaned_cells row in
      let repo := row_repo_path row in
      match cleaned with
      | [c0; c1; c2] =>
          (Some c0,
           products ++ [mkProductRecord (or_else (Some c0) ungrouped) c1 c2 repo])
      | [c0; c1] =>
          if truthy current_group
          then (current_group,
                products ++ [mkProductRecord (or_else current_group ungrouped) c0 c1 repo])
          else st
      | _ => st
      end
  end.

Definition extract_loop (st : option string * list ProductRecord) (rows : list string)
  : option string * list ProductRecord :=
  fold_left row_step rows st.

Definition _extract_rows (table_html : string) : list ProductRecord :=
  snd (extract_loop (None, []) (Re.findall_tr table_html)).

Definition no_table_message : string := "在 README_zh.md 中没有找到产品表格。".

(** [load_hierarchy], on the text of [README_zh.md]. *)
Definition load_hierarchy (content : string)
  : result (list (string * list ProductRecord)) :=
  match Re.search_table content with
  | None => Raise (RuntimeError no_table_message)
  | Some table =>
      Return
        (fold_left
           (fun hierarchy item =>
              PyDict.set (group item)
                (default [] (PyDict.get (group item) hierarchy) ++ [item])
                hierarchy)
           (_extract_rows table) [])
  end.

Definition infer_server_command (record : ProductRecord) : option string :=
  match repo_path record with
  | None => None
  | Some path =>
      if String.eqb path "" then None
      else
        let repo_name := Text.path_name path in
        if String.prefix "mcp_server_" repo_name
        then Some ("mcp-server-" +:+ Text.remove_all "mcp_server_" repo_name)
        else None
  end.

(** [sorted] on strings. *)
Fixpoint insert_sorted (k : string) (l : list string) : list string :=
  match l with
  | [] => [k]
  | x :: l' => if String.leb k x then k :: l else x :: insert_sorted k l'
  end.

Definition sorted (l : list string) : list string :=
  fold_right insert_sorted [] l.

(** [list_groups]: the lines it prints, each a group and the number of its
    products. *)
Definition list_groups (hierarchy : list (string * list ProductRecord))
  : list (string * nat) :=
  map (fun g => (g, List.length (default [] (PyDict.get g hierarchy))))
      (sorted (PyDict.keys hierarchy)).

Definition list_products (hierarchy : list (string * list ProductRecord))
  (group_name : string) : result (list ProductRecord) :=
  match default [] (PyDict.get group_name hierarchy) with
  | [] => Raise (ValueError ("未找到分组: " +:+ group_name))
  | items => Return items
  end.

Section Lookup.
(** [str.lower], of the Python runtime. *)
Variable lower : string -> string.

(** The test of the loop of [find_product]. *)
Definition product_matches (item : ProductRecord) (product : string) : bool :=
  String.eqb (product_name item) product
  || String.eqb (lower (product_short item)) (lower product).

(** The loop of [find_product]. *)
Fixpoint first_match (items : list ProductRecord) (product : string)
  : option ProductRecord :=
  match items with
  | [] => None
  | item :: rest =>
      if product_matches item product then Some item
      else first_match rest product
  end.

Definition unknown_product_message (group_name product : string) : string :=
  "在分组 " +:+ group_name +:+ " 中未找到产品: " +:+ product.

Definition find_product (hierarchy : list (string * list ProductRecord))
  (group_name product : string) : result ProductRecord :=
  match first_match (default [] (PyDict.get group_name hierarchy)) product with
  | Some item => Return item
  | None =>
      Raise (ValueError (unknown_product_message group_name product))
  end.

End Lookup.

Definition no_command_message (record : ProductRecord) : string :=
  "产品 " +:+ product_name record +:+ " 缺少可推断的启动命令。".

Section Launch.
Variable session : string -> list string -> McpCollect.session_outcome.
(** [sys.executable] and [PROJECT_ROOT / "mcp_collect.py"]. *)
Variables (executable mcp_collect : string).
(** [str.lower], of the Python runtime. *)
Variable lower : string -> string.

(** [subprocess.run(cmd, cwd=PROJECT_ROOT, check=True)] for the command
    line built by [collect_api]: the child is [mcp_collect.py], whose
    argument parser gives back [command] and [output] and no [--args]. *)
Definition run_checked (cmd : list string) (command output : string) (w : world)
  : result unit * world :=
  let w1 := mkWorld (files w) (trace w ++ [Spawned cmd]) in
  match McpCollect.main session command [] output w1 with
  | (Return _, w2) => (Return tt, w2)
  | (Raise _, w2) => (Raise (CalledProcessError 1), w2)
  end.

Definition collect_api (record : ProductRecord) (output : string) (w : world)
  : result unit * world :=
  match infer_server_command record with
  | None =>
      (Raise (RuntimeError (no_command_message record)), w)
  | Some command =>
      if String.eqb command "" then
        (Raise (RuntimeError (no_command_message record)), w)
      else
        let cmd := [executable; mcp_collect; "--command"; command; "--output"; output] in
        run_checked cmd command output w
  end.

(** The parsed command line of [main]. *)
Record Args := mkArgs {
  arg_list_groups : bool;
  arg_group : option string;
  arg_product : option string;
  arg_collect_api : bool;
  arg_output : string;
  arg_json : bool
}.

(** What [main] reports on standard output. *)
Inductive report :=
| Groups (lines : list (string * nat))
| Products (items : list ProductRecord)
| Resolved (record : ProductRecord).

(** [main], on the text of [README_zh.md] and the parsed arguments. *)
Definition main (content : string) (args : Args) (w : world)
  : result report * world :=
  match load_hierarchy content with
  | Raise e => (Raise e, w)
  | Return hierarchy =>
      if arg_list_groups args then (Return (Groups (list_groups hierarchy)), w)
      else if truthy (arg_group args) && negb (truthy (arg_product args)) then
        match list_products hierarchy (default "" (arg_group args)) with
        | Raise e => (Raise e, w)
        | Return items => (Return (Products items), w)
        end
      else if truthy (arg_group args) && truthy (arg_product args) then
        match find_product lower hierarchy (default "" (arg_group args))
                (default "" (arg_product args)) with
        | Raise e => (Raise e, w)
        | Return record =>
            if arg_collect_api args then
              match collect_api record (arg_output args) w with
              | (Raise e, w') => (Raise e, w')
              | (Return _, w') => (Return (Resolved record), w')
              end
            else (Return (Resolved record), w)
        end
      else (Raise (SystemExit 2), w)
  end.
End Launch.

End HierarchyQuery.

(** * Vocabulary of the statements *)

Import HierarchyQuery.
Import McpCollect.

(** The document holds a region that opens with the text [<table] and is
    closed further on by [</table>]. *)
Definition has_table (content : string) : Prop :=
  exists pre mid post,
    content = pre +:+ "<table" +:+ mid +:+ "</table>" +:+ post.

(** The rule as the specification words it: the prefix is stripped once
    from the final segment. *)
Definition infer_by_rule (record : ProductRecord) : option string :=
  match repo_path record with
  | None => None
  | Some path =>
      let s := Text.path_name path in
      if String.prefix "mcp_server_" s
      then Some ("mcp-server-" +:+ Text.drop_str 11 s)
      else None
  end.

(** The record of a two-cell row read under the group [g]. *)
Definition two_cell_record (g row : string) : ProductRecord :=
  mkProductRecord g (nth 0 (cleaned_cells row) "") (nth 1 (cleaned_cells row) "")
    (row_repo_path row).

(** Sample data: a group of three rows, the first one carrying the group
    cell. *)
Definition scenario_A_table : string :=
  "<table><tr><td>Compute</td><td>Elastic Cloud Server</td><td>ECS</td></tr>"
  +:+ "<tr><td>Bare Metal Server</td><td>BMS</td></tr>"
  +:+ "<tr><td>Image Management</td><td>IMS</td></tr></table>".


(** The upstream object carries an input schema that counts as true. *)
Definition has_input_schema (tool : Tool) : bool :=
  match inputSchema tool with
  | Some schema => json_truthy schema
  | None => false
  end.

(** The entry [add_tool] stores for a tool. *)
Definition tool_entry (tool : Tool) : list (string * json) :=
  if has_input_schema tool then
    [("description", description tool);
     ("inputSchema", default JNull (inputSchema tool));
     ("parameters", default (JObj []) (parameters tool))]
  else [("description", description tool); ("inputSchema", JNull)].

(** A session that lists one tool, whatever the command. *)
Definition one_tool_session (_ : string) (_ : list string) : session_outcome :=
  Listed [mkTool "list_buckets" (JStr "List buckets")
            (Some (JObj [("type", JStr "object")])) None].

(** Sample data: a product with a repository, an artifact left by an
    earlier run, and a catalog whose only product has no link. *)
Definition obs_record : ProductRecord :=
  mkProductRecord "Storage" "Object Storage Service" "OBS"
    (Some "huaweicloud_services_server/mcp_server_obs").

Definition ecs_artifact : gmap string json :=
  {[ "mcp_schemas.json" := JObj [("mcp-server-ecs", JObj [("old", JNull)])] ]}.

Definition catalog_without_link : string :=
  "<table><tr><td>Storage</td><td>Object Storage Service</td><td>OBS</td></tr></table>".

(** The body of the loop of [load_hierarchy]:
    [hierarchy.setdefault(item.group, []).append(item)]. *)
Definition hierarchy_add (hierarchy : list (string * list ProductRecord))
  (item : ProductRecord) : list (string * list ProductRecord) :=
  PyDict.set (group item)
    (default [] (PyDict.get (group item) hierarchy) ++ [item])
    hierarchy.

(** The record is filed under the group [g]. *)
Definition in_group (g : string) (r : ProductRecord) : bool :=
  String.eqb (group r) g.

(** The three fields of the record are texts without white space at
    either end. *)
Definition stripped_record (r : ProductRecord) : Prop :=
  Text.strip (group r) = group r
  /\ Text.strip (product_name r) = product_name r
  /\ Text.strip (product_short r) = product_short r.

(** The character [c] occurs in [s]. *)
Fixpoint has_char (c : ascii) (s : string) : bool :=
  match s with
  | EmptyString => false
  | String x t => Ascii.eqb x c || has_char c t
  end.

(** [s['inputSchema']] taken as a truth value, for an entry [s] of the
    mapping; every entry [add_tool] builds carries the key. *)
Definition entry_has_schema (entry : json) : bool :=
  match entry with
  | JObj fields =>
      match PyDict.get "inputSchema" fields with
      | Some schema => json_truthy schema
      | None => false
      end
  | _ => false
  end.

(** The three numbers of the report of [main] in [mcp_collect.py]: the
    tools, those with a schema, those without. *)
Definition schema_report (schemas : list (string * json)) : nat * nat * nat :=
  let with_schema := List.length (List.filter (fun kv => entry_has_schema (snd kv)) schemas) in
  (List.length schemas, with_schema, List.length schemas - with_schema).

(** The markup of a table whose cells hold plain text: one [<td>] element
    per cell, one [<tr>] element per row, nothing between the elements. *)
Definition render_cell (c : string) : string := "<td>" +:+ c +:+ "</td>".

Fixpoint render_cells (cells : list string) : string :=
  match cells with
  | [] => EmptyString
  | c :: cs => render_cell c +:+ render_cells cs
  end.

Fixpoint render_rows (rows : list (list string)) : string :=
  match rows with
  | [] => EmptyString
  | cells :: more => "<tr>" +:+ render_cells cells +:+ "</tr>" +:+ render_rows more
  end.

Definition render_table (rows : list (list string)) : string :=
  "<table>" +:+ render_rows rows +:+ "</table>".

(** A text without markup: no [<] in it. *)
Definition plain (c : string) : Prop := has_char "<" c = false.

(** A cell as the parser gives it back: plain, without white space at
    either end. *)
Definition clean_cell (c : string) : Prop := plain c /\ Text.strip c = c.

(** A cell of text: clean, and without double quote, so that nothing in
    it reads as a link target. *)
Definition text_cell (c : string) : Prop :=
  clean_cell c /\ has_char Text.dquote c = false.

(** The table of one group: its three-cell row, then the two-cell rows of
    the other products, each a name and a short name. *)
Definition group_rows (g p s : string) (others : list (string * string))
  : list (list string) :=
  [g; p; s] :: map (fun o => [fst o; snd o]) others.

(** The records of that group, none with a repository. *)
Definition group_records (g p s : string) (others : list (string * string))
  : list ProductRecord :=
  mkProductRecord g p s None
  :: map (fun o => mkProductRecord g (fst o) (snd o) None) others.

(** The number of products over all the buckets of a hierarchy. *)
Definition total_products (hierarchy : list (string * list ProductRecord)) : nat :=
  list_sum (map (fun kv => List.length (snd kv)) hierarchy).

(** * Properties *)

(** ** Text search *)

Section TextFacts.
Import Text.

Lemma append_nil (b : string) : "" +:+ b = b.
Proof. reflexivity. Qed.

Lemma append_cons (x : ascii) (a b : string) :
  String x a +:+ b = String x (a +:+ b).
Proof. reflexivity. Qed.

Lemma append_assoc (a b c : string) : (a +:+ b) +:+ c = a +:+ (b +:+ c).
Proof.
  induction a as [|x a IH]; [reflexivity|].
  now rewrite !append_cons, IH.
Qed.

Lemma append_empty_r (a : string) : a +:+ "" = a.
Proof.
  induction a as [|x a IH]; [reflexivity|].
  now rewrite append_cons, IH.
Qed.

Lemma length_append (a b : string) :
  String.length (a +:+ b) = String.length a + String.length b.
Proof.
  induction a as [|x a IH]; [reflexivity|].
  rewrite append_cons. simpl. now rewrite IH.
Qed.

Lemma prefix_append (p a : string) : String.prefix p (p +:+ a) = true.
Proof.
  induction p as [|x p IH].
  - rewrite append_nil. now destruct a.
  - rewrite append_cons. simpl.
    destruct (ascii_dec x x); [exact IH | congruence].
Qed.

Lemma prefix_split (p s : string) :
  String.prefix p s = true -> s = p +:+ drop_str (String.length p) s.
Proof.
  revert s; induction p as [|x p IH]; intros s H.
  - reflexivity.
  - destruct s as [|y s]; simpl in H; [discriminate|].
    destruct (ascii_dec x y) as [->|]; [|discriminate].
    rewrite append_cons. simpl. now rewrite <- (IH s H).
Qed.

Lemma drop_str_append (p a : string) : drop_str (String.length p) (p +:+ a) = a.
Proof.
  induction p as [|x p IH]; [reflexivity|].
  rewrite append_cons. simpl. exact IH.
Qed.

Lemma drop_str_app_le (n : nat) (u y : string) :
  n <= String.length u -> drop_str n (u +:+ y) = drop_str n u +:+ y.
Proof.
  revert u; induction n as [|n IH]; intros u H; [reflexivity|].
  destruct u as [|x u]; simpl in H; [lia|].
  rewrite append_cons. simpl. apply IH; lia.
Qed.

Lemma find_sub_cons (p : string) (c : ascii) (t : string) :
  find_sub p (String c t) =
  if String.prefix p (String c t)
  then Some (EmptyString, drop_str (String.length p) (String c t))
  else match find_sub p t with
       | Some (b, a) => Some (String c b, a)
       | None => None
       end.
Proof. reflexivity. Qed.

Lemma find_sub_nil (p : string) :
  find_sub p "" =
  if String.prefix p "" then Some (EmptyString, drop_str (String.length p) "")
  else None.
Proof. reflexivity. Qed.

(** What [find_sub] returns is an occurrence. *)
Lemma find_sub_Some (p s b a : string) :
  find_sub p s = Some (b, a) -> s = b +:+ p +:+ a.
Proof.
  revert b a; induction s as [|c t IH]; intros b a H.
  - rewrite find_sub_nil in H. destruct (String.prefix p "") eqn:E; [|discriminate].
    injection H as <- <-. now apply prefix_split.
  - rewrite find_sub_cons in H.
    destruct (String.prefix p (String c t)) eqn:E.
    + injection H as <- <-. now apply prefix_split.
    + destruct (find_sub p t) as [[b' a']|] eqn:F; [|discriminate].
      injection H as <- <-. rewrite append_cons. now rewrite <- (IH b' a').
Qed.

(** Every occurrence is found: the search succeeds, no later than the
    occurrence given. *)
Lemma find_sub_occurs (p pre y : string) :
  exists b z, find_sub p (pre +:+ p +:+ y) = Some (b, z +:+ y).
Proof.
  induction pre as [|c pre IH].
  - exists EmptyString, EmptyString. rewrite !append_nil.
    destruct (p +:+ y) as [|c t] eqn:E.
    + destruct p; [|discriminate]. rewrite append_nil in E. subst y. reflexivity.
    + rewrite find_sub_cons, <- E, prefix_append, drop_str_append. reflexivity.
  - destruct IH as (b & z & IH). rewrite append_cons, find_sub_cons.
    destruct (String.prefix p (String c (pre +:+ p +:+ y))) eqn:E.
    + exists EmptyString, (drop_str (String.length p) (String c pre +:+ p)).
      f_equal. f_equal.
      rewrite <- append_cons, <- append_assoc. apply drop_str_app_le.
      rewrite length_append. simpl. lia.
    + rewrite IH. now exists (String c b), z.
Qed.

Lemma find_sub_None (p s : string) :
  find_sub p s = None -> forall b a, s <> b +:+ p +:+ a.
Proof.
  intros H b a ->. destruct (find_sub_occurs p b a) as (b' & z & E). congruence.
Qed.

(** A text without occurrence of [old] is left as it is by the removal. *)
Lemma remove_all_absent (old s : string) :
  contains old s = false -> remove_all old s = s.
Proof.
  unfold contains, remove_all. induction s as [|c t IH]; intros H; [reflexivity|].
  rewrite find_sub_cons in H. simpl.
  destruct (String.prefix old (String c t)) eqn:E; [discriminate|].
  change (match old with
          | "" => true
          | String a s1' =>
              if ascii_dec a c then String.prefix s1' t else false
          end) with (String.prefix old (String c t)).
  rewrite E. f_equal. apply IH.
  destruct (find_sub old t) as [[? ?]|]; [discriminate | reflexivity].
Qed.

End TextFacts.

(** ** The catalog parser *)

Lemma search_table_found (content : string) :
  has_table content -> exists table, Re.search_table content = Some table.
Proof.
  intros (pre & mid & post & ->). unfold Re.search_table.
  destruct (find_sub_occurs "<table" pre (mid +:+ "</table>" +:+ post))
    as (b & z & ->).
  rewrite <- append_assoc.
  destruct (find_sub_occurs "</table>" (z +:+ mid) post) as (b' & z' & ->).
  eauto.
Qed.

Lemma search_table_region (content table : string) :
  Re.search_table content = Some table -> has_table content.
Proof.
  unfold Re.search_table. intros H.
  destruct (Text.find_sub "<table" content) as [[pre rest]|] eqn:E1; [|discriminate].
  destruct (Text.find_sub "</table>" rest) as [[mid post]|] eqn:E2; [|discriminate].
  apply find_sub_Some in E1, E2. subst rest. now exists pre, mid, post.
Qed.

(** Rows without any cell leave the state of the loop as it is. *)
Lemma extract_loop_no_cells (st : option string * list ProductRecord) (rows : list string) :
  Forall (fun row => Re.findall_td row = []) rows -> extract_loop st rows = st.
Proof.
  unfold extract_loop. induction 1 as [|row rows H _ IH]; [reflexivity|].
  simpl. replace (row_step st row) with st; [exact IH|].
  unfold row_step. destruct st. now rewrite H.
Qed.

(** C7.  [load_hierarchy] raises its format error exactly on the documents
    without a table region, and returns a hierarchy on all the others; a
    table none of whose rows has a cell gives no record, the empty
    hierarchy and no group to list. *)
Theorem load_hierarchy_format_error (content : string) :
  (load_hierarchy content = Raise (RuntimeError no_table_message)
     <-> ~ has_table content)
  /\ (has_table content -> exists hierarchy, load_hierarchy content = Return hierarchy)
  /\ (forall table,
        Re.search_table content = Some table ->
        Forall (fun row => Re.findall_td row = []) (Re.findall_tr table) ->
        _extract_rows table = []
        /\ load_hierarchy content = Return []
        /\ list_groups [] = []).
Proof.
  split; [|split].
  - unfold load_hierarchy. split.
    + intros H Ht. apply search_table_found in Ht as [table Ht].
      rewrite Ht in H. discriminate.
    + intros H. destruct (Re.search_table content) as [table|] eqn:E; [|reflexivity].
      exfalso. apply H. eapply search_table_region, E.
  - intros Ht. apply search_table_found in Ht as [table Ht].
    unfold load_hierarchy. rewrite Ht. eauto.
  - intros table Ht Hrows.
    assert (E : _extract_rows table = []).
    { unfold _extract_rows. now rewrite extract_loop_no_cells. }
    split; [exact E|]. split; [|reflexivity].
    unfold load_hierarchy. now rewrite Ht, E.
Qed.

Lemma load_hierarchy_format_error_witness :
  load_hierarchy "# MCP <table><tr><th>Group</th></tr></table>" = Return []
  /\ load_hierarchy "# MCP, no table" = Raise (RuntimeError no_table_message).
Proof.
  split.
  - destruct (load_hierarchy_format_error "# MCP <table><tr><th>Group</th></tr></table>")
      as (_ & _ & H).
    apply (H "<table><tr><th>Group</th></tr></table>"); [reflexivity|].
    repeat constructor.
  - reflexivity.
Defined.

(** ** Command inference *)

Lemma remove_from_skip (old q r : string) :
  Text.remove_from old (String.length q) (q +:+ r) = Text.remove_from old 0 r.
Proof.
  induction q as [|c q IH]; [reflexivity|].
  rewrite append_cons. simpl. exact IH.
Qed.

(** A leading occurrence is removed, and the removal goes on after it. *)
Lemma remove_all_leading (c : ascii) (q r : string) :
  Text.remove_all (String c q) (String c q +:+ r) = Text.remove_all (String c q) r.
Proof.
  unfold Text.remove_all.
  assert (E : Text.remove_from (String c q) 0 (String c (q +:+ r)) =
              if String.prefix (String c q) (String c (q +:+ r))
              then Text.remove_from (String c q) (String.length (String c q) - 1) (q +:+ r)
              else String c (Text.remove_from (String c q) 0 (q +:+ r)))
    by reflexivity.
  rewrite append_cons, E, <- append_cons, prefix_append.
  replace (String.length (String c q) - 1) with (String.length q) by (simpl; lia).
  apply remove_from_skip.
Qed.

(** The code and the rule agree whenever the prefix does not occur again
    in the rest of the segment. *)
Lemma infer_server_command_by_rule (record : ProductRecord) :
  (forall path, repo_path record = Some path ->
     Text.contains "mcp_server_" (Text.drop_str 11 (Text.path_name path)) = false) ->
  infer_server_command record = infer_by_rule record.
Proof.
  unfold infer_server_command, infer_by_rule. intros H.
  destruct (repo_path record) as [path|]; [|reflexivity].
  specialize (H path eq_refl).
  destruct (String.eqb_spec path "") as [->|_]; [reflexivity|].
  destruct (String.prefix "mcp_server_" (Text.path_name path)) eqn:E; [|reflexivity].
  apply prefix_split in E. rewrite E at 1.
  now rewrite remove_all_leading, remove_all_absent.
Qed.

(** C3.  On a final segment in which the prefix occurs twice the code
    removes both occurrences, where the rule strips the leading one only. *)
Theorem infer_server_command_inner_prefix :
  let record := mkProductRecord "G" "P" "p" (Some "foo/mcp_server_a_mcp_server_b") in
  infer_server_command record = Some "mcp-server-a_b"
  /\ infer_by_rule record = Some "mcp-server-a_mcp_server_b".
Proof. split; reflexivity. Qed.

Example infer_scenario_B :
  infer_server_command (mkProductRecord "G" "P" "p" (Some "foo/mcp_server_ecs"))
    = Some "mcp-server-ecs"
  /\ infer_server_command (mkProductRecord "G" "P" "p" (Some "foo/other")) = None
  /\ infer_server_command (mkProductRecord "G" "P" "p" None) = None.
Proof. repeat split; reflexivity. Qed.

(** ** Product lookup *)

Lemma first_match_Some (lower : string -> string) (items : list ProductRecord) (q : string) (r : ProductRecord) :
  first_match lower items q = Some r ->
  exists before after,
    items = before ++ r :: after
    /\ Forall (fun x => product_matches lower x q = false) before
    /\ product_matches lower r q = true.
Proof.
  induction items as [|x items IH]; simpl; [discriminate|].
  destruct (product_matches lower x q) eqn:E.
  - intros [= <-]. now exists [], items.
  - intros H. destruct (IH H) as (before & after & -> & Hb & Hr).
    exists (x :: before), after. repeat split; [|exact Hr]. now constructor.
Qed.

Lemma first_match_None (lower : string -> string) (items : list ProductRecord) (q : string) :
  first_match lower items q = None ->
  Forall (fun x => product_matches lower x q = false) items.
Proof.
  induction items as [|x items IH]; simpl; [constructor|].
  destruct (product_matches lower x q) eqn:E; [discriminate|].
  intros H. constructor; [exact E | exact (IH H)].
Qed.

(** C4, as the code has it.  [find_product] returns the first record of
    the group, in insertion order, whose name is the query or whose short
    name is the query up to letter case; the two tests are tried together
    on each record, none before the other over the group.  It raises its
    error exactly when no record passes the test. *)
Theorem find_product_first_match (lower : string -> string)
  (hierarchy : list (string * list ProductRecord)) (g q : string) :
  match find_product lower hierarchy g q with
  | Return r =>
      exists before after,
        default [] (PyDict.get g hierarchy) = before ++ r :: after
        /\ Forall (fun x => product_matches lower x q = false) before
        /\ product_matches lower r q = true
  | Raise e =>
      e = ValueError (unknown_product_message g q)
      /\ Forall (fun x => product_matches lower x q = false)
           (default [] (PyDict.get g hierarchy))
  end.
Proof.
  unfold find_product.
  destruct (first_match lower (default [] (PyDict.get g hierarchy)) q) as [r|] eqn:E.
  - now apply first_match_Some.
  - split; [reflexivity | now apply first_match_None].
Qed.

(** C4, as stated, fails, whatever [str.lower] does: a record whose name
    is the query is passed over when an earlier record of the group has
    the query as its short name. *)
Lemma find_product_alias_shadows_name :
  ~ (exists lower : string -> string,
       forall (hierarchy : list (string * list ProductRecord)) (g q : string)
              (r : ProductRecord),
         In r (default [] (PyDict.get g hierarchy)) ->
         product_name r = q ->
         exists r', find_product lower hierarchy g q = Return r' /\ product_name r' = q).
Proof.
  intros [lower H].
  pose (r1 := mkProductRecord "Storage" "Object Storage Service" "obs" None).
  pose (r2 := mkProductRecord "Storage" "obs" "OBS-legacy" None).
  destruct (H [("Storage", [r1; r2])] "Storage" "obs" r2) as (r' & E & N).
  - right. left. reflexivity.
  - reflexivity.
  - assert (M : product_matches lower r1 "obs" = true).
    { unfold product_matches. simpl product_short.
      rewrite (String.eqb_refl (lower "obs")). apply orb_true_r. }
    assert (F : find_product lower [("Storage", [r1; r2])] "Storage" "obs" = Return r1).
    { unfold find_product. simpl PyDict.get. simpl default. cbn [first_match].
      now rewrite M. }
    rewrite F in E. injection E as <-. discriminate N.
Qed.

Example find_product_short_any_case :
  let r := mkProductRecord "Compute" "Elastic Cloud Server" "ECS" None in
  find_product Text.ascii_lower [("Compute", [r])] "Compute" "eCs" = Return r
  /\ find_product Text.ascii_lower [("Compute", [r])] "Compute" "elastic cloud server"
     = Raise (ValueError (unknown_product_message "Compute" "elastic cloud server")).
Proof. split; reflexivity. Qed.

(** ** The rows of the table *)

Lemma cleaned_cells_nil (row : string) :
  Re.findall_td row = [] -> cleaned_cells row = [].
Proof. unfold cleaned_cells. now intros ->. Qed.

Lemma row_step_three (cg : option string) (acc : list ProductRecord)
  (row g p s : string) :
  cleaned_cells row = [g; p; s] ->
  row_step (cg, acc) row =
  (Some g, acc ++ [mkProductRecord (or_else (Some g) ungrouped) p s (row_repo_path row)]).
Proof.
  intros H. unfold row_step.
  destruct (Re.findall_td row) eqn:E.
  - apply cleaned_cells_nil in E. congruence.
  - now rewrite H.
Qed.

Lemma row_step_two (g : string) (acc : list ProductRecord) (row p s : string) :
  cleaned_cells row = [p; s] -> g <> "" ->
  row_step (Some g, acc) row =
  (Some g, acc ++ [mkProductRecord g p s (row_repo_path row)]).
Proof.
  intros H Hg. unfold row_step.
  destruct (Re.findall_td row) eqn:E.
  - apply cleaned_cells_nil in E. congruence.
  - rewrite H. simpl. now destruct (String.eqb_spec g "").
Qed.

Lemma row_step_two_skipped (cg : option string) (acc : list ProductRecord)
  (row p s : string) :
  cleaned_cells row = [p; s] -> truthy cg = false ->
  row_step (cg, acc) row = (cg, acc).
Proof.
  intros H Hg. unfold row_step.
  destruct (Re.findall_td row) eqn:E; [reflexivity|].
  now rewrite H, Hg.
Qed.

Lemma row_step_other (st : option string * list ProductRecord) (row : string) :
  List.length (cleaned_cells row) <> 3 -> List.length (cleaned_cells row) <> 2 ->
  row_step st row = st.
Proof.
  intros H3 H2. unfold row_step. destruct st as [cg acc].
  destruct (Re.findall_td row) eqn:E; [reflexivity|].
  destruct (cleaned_cells row) as [|a [|b [|c [|d more]]]]; simpl in *;
    try reflexivity; congruence.
Qed.

Lemma extract_loop_two_cells (g : string) (rows : list string) :
  g <> "" ->
  Forall (fun row => List.length (cleaned_cells row) = 2) rows ->
  forall acc,
    extract_loop (Some g, acc) rows = (Some g, acc ++ map (two_cell_record g) rows).
Proof.
  intros Hg. unfold extract_loop. induction 1 as [|row rows H _ IH]; intros acc.
  - simpl. now rewrite app_nil_r.
  - destruct (cleaned_cells row) as [|p [|s [|x more]]] eqn:E; try discriminate H.
    cbn [fold_left]. rewrite (row_step_two g acc row p s E Hg), IH, <- app_assoc.
    cbn [map app]. f_equal. f_equal. f_equal.
    unfold two_cell_record. now rewrite E.
Qed.

(** C5, as the code has it.  A three-cell row whose first cell is not
    empty, followed by two-cell rows only, gives one record per row, in
    the order of the rows, all under the group of the first cell.  Row by
    row: a three-cell row sets the current group to its first cell; a
    two-cell row is read under the current group when that group is set
    and not empty, and is skipped otherwise. *)
Theorem row_span_inheritance :
  (forall (table r0 : string) (rs : list string) (g p s : string),
      Re.findall_tr table = r0 :: rs ->
      cleaned_cells r0 = [g; p; s] ->
      g <> "" ->
      Forall (fun row => List.length (cleaned_cells row) = 2) rs ->
      _extract_rows table =
        mkProductRecord g p s (row_repo_path r0) :: map (two_cell_record g) rs
      /\ List.length (_extract_rows table) = S (List.length rs)
      /\ Forall (fun r => group r = g) (_extract_rows table))
  /\ (forall cg acc row g p s,
        cleaned_cells row = [g; p; s] ->
        row_step (cg, acc) row =
        (Some g,
         acc ++ [mkProductRecord (or_else (Some g) ungrouped) p s (row_repo_path row)]))
  /\ (forall g acc row p s,
        cleaned_cells row = [p; s] -> g <> "" ->
        row_step (Some g, acc) row =
        (Some g, acc ++ [mkProductRecord g p s (row_repo_path row)]))
  /\ (forall cg acc row p s,
        cleaned_cells row = [p; s] -> truthy cg = false ->
        row_step (cg, acc) row = (cg, acc)).
Proof.
  split; [|split; [|split]].
  - intros table r0 rs g p s Hrows H0 Hg Hrs.
    assert (E : _extract_rows table =
                mkProductRecord g p s (row_repo_path r0) :: map (two_cell_record g) rs).
    { unfold _extract_rows. rewrite Hrows. unfold extract_loop. cbn [fold_left].
      rewrite (row_step_three None [] r0 g p s H0).
      fold (extract_loop
              (Some g, [] ++ [mkProductRecord (or_else (Some g) ungrouped) p s (row_repo_path r0)])
              rs).
      rewrite (extract_loop_two_cells g rs Hg Hrs). simpl.
      now destruct (String.eqb_spec g ""). }
    rewrite E. split; [reflexivity|]. split.
    + simpl. now rewrite length_map.
    + constructor; [reflexivity|]. apply List.Forall_forall. intros r Hr.
      apply in_map_iff in Hr as (row & <- & _). reflexivity.
  - exact row_step_three.
  - exact row_step_two.
  - exact row_step_two_skipped.
Qed.

Lemma row_span_inheritance_witness :
  _extract_rows scenario_A_table =
  [mkProductRecord "Compute" "Elastic Cloud Server" "ECS" None;
   mkProductRecord "Compute" "Bare Metal Server" "BMS" None;
   mkProductRecord "Compute" "Image Management" "IMS" None].
Proof.
  destruct row_span_inheritance as [H _].
  destruct (H scenario_A_table
              "<td>Compute</td><td>Elastic Cloud Server</td><td>ECS</td>"
              ["<td>Bare Metal Server</td><td>BMS</td>";
               "<td>Image Management</td><td>IMS</td>"]
              "Compute" "Elastic Cloud Server" "ECS") as [E _].
  - reflexivity.
  - reflexivity.
  - discriminate.
  - repeat constructor.
  - exact E.
Defined.

(** C5, as stated, fails: when the first cell of the three-cell row is
    empty the two-cell rows after it give no record. *)
Lemma row_span_empty_group_cell :
  ~ (forall (table r0 : string) (rs : list string) (g p s : string),
        Re.findall_tr table = r0 :: rs ->
        cleaned_cells r0 = [g; p; s] ->
        Forall (fun row => List.length (cleaned_cells row) = 2) rs ->
        List.length (_extract_rows table) = S (List.length rs)
        /\ Forall (fun r => group r = g) (_extract_rows table)).
Proof.
  intros H.
  destruct (H "<table><tr><td></td><td>A</td><td>a</td></tr><tr><td>B</td><td>b</td></tr></table>"
              "<td></td><td>A</td><td>a</td>" ["<td>B</td><td>b</td>"] "" "A" "a")
    as [E _].
  - reflexivity.
  - reflexivity.
  - repeat constructor.
  - vm_compute in E. discriminate E.
Qed.






(** ** Dictionaries *)

Section DictFacts.
Context {V : Type}.
Implicit Types (d : list (string * V)) (k : string) (v : V).

Lemma get_set_eq k v d : PyDict.get k (PyDict.set k v d) = Some v.
Proof.
  induction d as [|[k' v'] d IH]; simpl.
  - now rewrite String.eqb_refl.
  - destruct (String.eqb k' k) eqn:E; simpl; now rewrite E.
Qed.

Lemma get_set_ne k k' v d :
  k <> k' -> PyDict.get k' (PyDict.set k v d) = PyDict.get k' d.
Proof.
  intros Hne. induction d as [|[k0 v0] d IH]; simpl.
  - now destruct (String.eqb_spec k k').
  - destruct (String.eqb_spec k0 k) as [->|]; simpl.
    + now destruct (String.eqb_spec k k').
    + now rewrite IH.
Qed.

Lemma keys_set k k' v d :
  In k' (PyDict.keys (PyDict.set k v d)) <-> k' = k \/ In k' (PyDict.keys d).
Proof.
  unfold PyDict.keys. induction d as [|[k0 v0] d IH]; simpl.
  - intuition.
  - destruct (String.eqb_spec k0 k) as [->|]; simpl; intuition.
Qed.

End DictFacts.

(** ** Schema collection *)

Lemma add_tool_entry (schemas : list (string * json)) (tool : Tool) :
  add_tool schemas tool = PyDict.set (name tool) (JObj (tool_entry tool)) schemas.
Proof.
  unfold add_tool, tool_entry, has_input_schema.
  destruct (inputSchema tool) as [schema|]; [|reflexivity].
  now destruct (json_truthy schema).
Qed.

Lemma fold_add_tool_keys (tools : list Tool) (schemas : list (string * json)) (k : string) :
  In k (PyDict.keys (fold_left add_tool tools schemas))
  <-> In k (PyDict.keys schemas) \/ exists t, In t tools /\ name t = k.
Proof.
  revert schemas. induction tools as [|tool tools IH]; intros schemas; simpl.
  - split; [now left | intros [H | (t & [] & _)]; exact H].
  - rewrite IH, add_tool_entry, keys_set. split.
    + intros [[-> | H] | (t & Ht & E)]; eauto.
    + intros [H | (t & [-> | Ht] & E)]; eauto.
Qed.

Lemma fold_add_tool_other (tools : list Tool) (schemas : list (string * json)) (k : string) :
  ~ In k (map name tools) ->
  PyDict.get k (fold_left add_tool tools schemas) = PyDict.get k schemas.
Proof.
  revert schemas. induction tools as [|tool tools IH]; intros schemas H; simpl.
  - reflexivity.
  - rewrite IH, add_tool_entry by (intros ?; apply H; now right).
    apply get_set_ne. intros E. apply H. now left.
Qed.



(** C8, as the code has it.  The entry kept for a tool (the last one of
    its name in the listing) has a [parameters] field exactly when the
    upstream object carries an input schema that counts as true; the field
    then holds the upstream [parameters] when the object exposes them and
    the empty document otherwise.  [inputSchema] is that schema in this
    case and null in every other one: no attribute, a null schema or an
    empty one. *)
Theorem collected_entry_fields (before after : list Tool) (tool : Tool) :
  ~ In (name tool) (map name after) ->
  exists fields,
    PyDict.get (name tool) (fold_left add_tool (before ++ tool :: after) [])
      = Some (JObj fields)
    /\ PyDict.get "description" fields = Some (description tool)
    /\ if has_input_schema tool
       then PyDict.get "inputSchema" fields = inputSchema tool
            /\ PyDict.get "parameters" fields
               = Some (default (JObj []) (parameters tool))
       else PyDict.get "inputSchema" fields = Some JNull
            /\ PyDict.get "parameters" fields = None.
Proof.
  intros H. exists (tool_entry tool). split.
  - rewrite fold_left_app. simpl.
    rewrite fold_add_tool_other, add_tool_entry by exact H.
    apply get_set_eq.
  - unfold tool_entry, has_input_schema.
    destruct (inputSchema tool) as [schema|]; [|now repeat split].
    destruct (json_truthy schema); now repeat split.
Qed.

Lemma collected_entry_fields_witness :
  exists fields,
    PyDict.get "list_servers"
      (fold_left add_tool
         [mkTool "list_servers" (JStr "old") None None;
          mkTool "list_servers" (JStr "List servers") (Some (JObj [])) (Some (JObj [("x", JNum 1)]));
          mkTool "show_server" (JStr "") (Some (JObj [("type", JStr "object")])) None]
         [])
      = Some (JObj fields)
    /\ PyDict.get "description" fields = Some (JStr "List servers")
    /\ PyDict.get "inputSchema" fields = Some JNull
    /\ PyDict.get "parameters" fields = None.
Proof.
  apply (collected_entry_fields
           [mkTool "list_servers" (JStr "old") None None]
           [mkTool "show_server" (JStr "") (Some (JObj [("type", JStr "object")])) None]
           (mkTool "list_servers" (JStr "List servers") (Some (JObj []))
              (Some (JObj [("x", JNum 1)])))).
  simpl. intros [E | []]. discriminate E.
Defined.

(** C8, as stated, fails: with an input schema and no [parameters]
    attribute upstream, the entry still has the field, holding the empty
    document. *)
Lemma collected_entry_default_parameters :
  ~ (forall (schemas : list (string * json)) (tool : Tool) (fields : list (string * json)),
        PyDict.get (name tool) (add_tool schemas tool) = Some (JObj fields) ->
        (PyDict.get "parameters" fields <> None -> parameters tool <> None)
        /\ (PyDict.get "inputSchema" fields = Some JNull <-> inputSchema tool = None)).
Proof.
  intros H.
  destruct (H [] (mkTool "show_server" (JStr "Show a server")
                    (Some (JObj [("type", JStr "object")])) None)
              [("description", JStr "Show a server");
               ("inputSchema", JObj [("type", JStr "object")]);
               ("parameters", JObj [])] eq_refl) as [P _].
  apply P; [discriminate | reflexivity].
Qed.

(** ** Writing the artifact *)

Lemma mcp_collect_main_nonempty
  (session : string -> list string -> session_outcome)
  (command : string) (args : list string) (output : string) (w : world)
  (schemas : list (string * json)) :
  get_server_schemas session command (Some args) = Return schemas ->
  schemas <> [] ->
  McpCollect.main session command args output w =
    (Return tt,
     mkWorld (<[output := JObj schemas]> (files w)) (trace w ++ [Wrote output])).
Proof.
  unfold McpCollect.main. intros -> Hne. now destruct schemas.
Qed.

(** C10.  [main] of [mcp_collect.py] leaves the files and the trace as they
    are when the mapping collected is empty, which is also what an
    absorbed session failure gives; it writes the output file, once, when
    the mapping is not empty, and in no other case. *)
Theorem main_writes_only_nonempty
  (session : string -> list string -> session_outcome)
  (command : string) (args : list string) (output : string) (w : world) :
  (get_server_schemas session command (Some args) = Return [] ->
   McpCollect.main session command args output w = (Return tt, w))
  /\ (forall e, session command args = Failed e -> is_Exception e = true ->
      McpCollect.main session command args output w = (Return tt, w))
  /\ (forall schemas,
        get_server_schemas session command (Some args) = Return schemas ->
        schemas <> [] ->
        McpCollect.main session command args output w =
          (Return tt,
           mkWorld (<[output := JObj schemas]> (files w)) (trace w ++ [Wrote output])))
  /\ (snd (McpCollect.main session command args output w) <> w ->
      exists schemas,
        get_server_schemas session command (Some args) = Return schemas
        /\ schemas <> []).
Proof.
  unfold McpCollect.main. repeat split.
  - now intros ->.
  - intros e He Hc. unfold get_server_schemas. simpl. now rewrite He, Hc.
  - intros schemas Hs Hne.
    now rewrite <- (mcp_collect_main_nonempty session command args output w schemas).
  - destruct (get_server_schemas session command (Some args)) as [schemas|e].
    + destruct schemas as [|kv schemas]; simpl; [congruence|].
      intros _. now exists (kv :: schemas).
    + simpl. congruence.
Qed.

Lemma main_writes_only_nonempty_witness :
  McpCollect.main (fun _ _ => Failed (SessionFailure "connection refused"))
    "mcp-server-ecs" [] "mcp_schemas.json"
    (mkWorld {[ "mcp_schemas.json" := JObj [("kept", JNull)] ]} [])
  = (Return tt, mkWorld {[ "mcp_schemas.json" := JObj [("kept", JNull)] ]} []).
Proof.
  apply (main_writes_only_nonempty
           (fun _ _ => Failed (SessionFailure "connection refused"))
           "mcp-server-ecs" [] "mcp_schemas.json").
  reflexivity.
Defined.

(** ** Resolve and collect *)





(** C6.  For a record without inferable command, [collect_api] raises its
    error and leaves the world as it was: no process is started and no
    file is written.  So does the whole resolve-and-collect run of [main]
    once the product is resolved to such a record. *)
Theorem collect_api_without_command (lower : string -> string)
  (session : string -> list string -> session_outcome)
  (executable mcp_collect : string) (record : ProductRecord) (output : string)
  (w : world) :
  infer_server_command record = None ->
  collect_api session executable mcp_collect record output w
    = (Raise (RuntimeError (no_command_message record)), w)
  /\ forall (content : string) (hierarchy : list (string * list ProductRecord))
            (g p : string) (as_json : bool),
       load_hierarchy content = Return hierarchy ->
       g <> "" -> p <> "" ->
       find_product lower hierarchy g p = Return record ->
       HierarchyQuery.main session executable mcp_collect lower content
         (mkArgs false (Some g) (Some p) true output as_json) w
       = (Raise (RuntimeError (no_command_message record)), w).
Proof.
  intros Hc.
  assert (E : collect_api session executable mcp_collect record output w
              = (Raise (RuntimeError (no_command_message record)), w)).
  { unfold collect_api. now rewrite Hc. }
  split; [exact E|].
  intros content hierarchy g p as_json Hl Hg Hp Hf.
  unfold HierarchyQuery.main. rewrite Hl. simpl.
  destruct (String.eqb_spec g "") as [|_]; [contradiction|].
  destruct (String.eqb_spec p "") as [|_]; [contradiction|].
  simpl. now rewrite Hf, E.
Qed.

Lemma collect_api_without_command_witness :
  HierarchyQuery.main one_tool_session "python3" "mcp_collect.py" Text.ascii_lower catalog_without_link
    (mkArgs false (Some "Storage") (Some "obs") true "mcp_schemas.json" false)
    (mkWorld ecs_artifact [])
  = (Raise (RuntimeError
              (no_command_message
                 (mkProductRecord "Storage" "Object Storage Service" "OBS" None))),
     mkWorld ecs_artifact []).
Proof.
  destruct (collect_api_without_command Text.ascii_lower one_tool_session "python3" "mcp_collect.py"
              (mkProductRecord "Storage" "Object Storage Service" "OBS" None)
              "mcp_schemas.json" (mkWorld ecs_artifact []) eq_refl) as [_ H].
  apply (H catalog_without_link
           [("Storage", [mkProductRecord "Storage" "Object Storage Service" "OBS" None])]
           "Storage" "obs" false).
  - reflexivity.
  - discriminate.
  - discriminate.
  - reflexivity.
Defined.

(** * Further properties of [hierarchy_query.py] *)

(** ** The hierarchy built by [load_hierarchy] *)

Lemma load_hierarchy_unfold (content : string) :
  load_hierarchy content =
  match Re.search_table content with
  | None => Raise (RuntimeError no_table_message)
  | Some table => Return (fold_left hierarchy_add (_extract_rows table) [])
  end.
Proof. reflexivity. Qed.

Lemma get_hierarchy_add (h : list (string * list ProductRecord))
  (item : ProductRecord) (g : string) :
  PyDict.get g (hierarchy_add h item) =
  if in_group g item then Some (default [] (PyDict.get g h) ++ [item])
  else PyDict.get g h.
Proof.
  unfold hierarchy_add, in_group.
  destruct (String.eqb_spec (group item) g) as [->|Hne].
  - apply get_set_eq.
  - now apply get_set_ne.
Qed.

Lemma fold_hierarchy_bucket (items : list ProductRecord)
  (h : list (string * list ProductRecord)) (g : string) :
  default [] (PyDict.get g (fold_left hierarchy_add items h)) =
  default [] (PyDict.get g h) ++ List.filter (in_group g) items.
Proof.
  revert h. induction items as [|item items IH]; intros h; simpl.
  - now rewrite app_nil_r.
  - rewrite IH, get_hierarchy_add.
    destruct (in_group g item); simpl; [|reflexivity].
    now rewrite <- app_assoc.
Qed.

Lemma fold_hierarchy_keys (items : list ProductRecord)
  (h : list (string * list ProductRecord)) (g : string) :
  In g (PyDict.keys (fold_left hierarchy_add items h))
  <-> In g (PyDict.keys h) \/ exists r, In r items /\ group r = g.
Proof.
  revert h. induction items as [|item items IH]; intros h; simpl.
  - split; [now left | intros [H | (r & [] & _)]; exact H].
  - rewrite IH. unfold hierarchy_add at 1. rewrite keys_set. split.
    + intros [[-> | H] | (r & Hr & E)]; eauto.
    + intros [H | (r & [-> | Hr] & E)]; eauto.
Qed.

Lemma keys_set_NoDup {V : Type} (k : string) (v : V) (d : list (string * V)) :
  NoDup (PyDict.keys d) -> NoDup (PyDict.keys (PyDict.set k v d)).
Proof.
  induction d as [|[k0 v0] d IH]; simpl; intros H.
  - apply NoDup_singleton.
  - apply NoDup_cons in H as [Hin Hd].
    destruct (String.eqb_spec k0 k) as [->|Hne]; simpl.
    + apply NoDup_cons. now split.
    + apply NoDup_cons. split; [|now apply IH].
      fold (PyDict.keys (PyDict.set k v d)).
      rewrite list_elem_of_In, keys_set.
      intros [E | Hk]; [now apply Hne | now apply Hin, list_elem_of_In].
Qed.

Lemma fold_hierarchy_NoDup (items : list ProductRecord)
  (h : list (string * list ProductRecord)) :
  NoDup (PyDict.keys h) -> NoDup (PyDict.keys (fold_left hierarchy_add items h)).
Proof.
  revert h. induction items as [|item items IH]; intros h H; simpl; [exact H|].
  apply IH. now apply keys_set_NoDup.
Qed.

Lemma get_Some_keys {V : Type} (k : string) (v : V) (d : list (string * V)) :
  PyDict.get k d = Some v -> In k (PyDict.keys d).
Proof.
  induction d as [|[k0 v0] d IH]; simpl; [discriminate|].
  destruct (String.eqb_spec k0 k) as [->|_]; [now left | right; now apply IH].
Qed.

Lemma get_None_keys {V : Type} (k : string) (d : list (string * V)) :
  PyDict.get k d = None -> ~ In k (PyDict.keys d).
Proof.
  induction d as [|[k0 v0] d IH]; simpl; [tauto|].
  destruct (String.eqb_spec k0 k) as [->|Hne]; [discriminate|].
  intros H [E | Hin]; [now apply Hne | now apply IH].
Qed.

Lemma filter_in_group_nonempty (g : string) (items : list ProductRecord) :
  (exists r, In r items /\ group r = g) -> List.filter (in_group g) items <> [].
Proof.
  intros (r & Hr & E) Hnil.
  assert (Hin : In r (List.filter (in_group g) items)).
  { apply List.filter_In. split; [exact Hr|]. unfold in_group.
    now apply String.eqb_eq. }
  rewrite Hnil in Hin. exact Hin.
Qed.

(** X1.  The bucket of a group in the hierarchy holds the records parsed
    under that group, all of them, in the order of the table; a group
    without record has no bucket. *)
Theorem load_hierarchy_buckets (content table : string)
  (hierarchy : list (string * list ProductRecord)) (g : string) :
  Re.search_table content = Some table ->
  load_hierarchy content = Return hierarchy ->
  PyDict.get g hierarchy =
  match List.filter (in_group g) (_extract_rows table) with
  | [] => None
  | items => Some items
  end.
Proof.
  intros Ht. rewrite load_hierarchy_unfold, Ht. intros [= <-].
  pose proof (fold_hierarchy_bucket (_extract_rows table) [] g) as B.
  pose proof (fold_hierarchy_keys (_extract_rows table) [] g) as K.
  simpl in B.
  destruct (PyDict.get g (fold_left hierarchy_add (_extract_rows table) [])) as [items|] eqn:E.
  - simpl in B. rewrite <- B.
    destruct items; [|reflexivity].
    exfalso. apply get_Some_keys in E. apply K in E as [[] | E].
    apply filter_in_group_nonempty in E. now apply E.
  - apply get_None_keys in E.
    destruct (List.filter (in_group g) (_extract_rows table)) as [|r l] eqn:F; [reflexivity|].
    exfalso. apply E, K. right. exists r.
    assert (Hin : In r (List.filter (in_group g) (_extract_rows table)))
      by (rewrite F; now left).
    apply List.filter_In in Hin as [Hr Hg]. split; [exact Hr|].
    now apply String.eqb_eq.
Qed.

Lemma load_hierarchy_buckets_witness :
  PyDict.get "Compute" [("Compute", _extract_rows scenario_A_table)]
  = Some (_extract_rows scenario_A_table).
Proof.
  apply (load_hierarchy_buckets scenario_A_table scenario_A_table
           [("Compute", _extract_rows scenario_A_table)] "Compute");
    reflexivity.
Defined.

(** X2.  The hierarchy is well formed: no group is listed twice, no bucket
    is empty, and every record sits in the bucket of its own group. *)
Theorem load_hierarchy_invariant (content : string)
  (hierarchy : list (string * list ProductRecord)) :
  load_hierarchy content = Return hierarchy ->
  NoDup (PyDict.keys hierarchy)
  /\ forall g items,
       PyDict.get g hierarchy = Some items ->
       items <> [] /\ Forall (fun r => group r = g) items.
Proof.
  rewrite load_hierarchy_unfold.
  destruct (Re.search_table content) as [table|]; [|discriminate].
  intros [= <-]. split.
  - apply fold_hierarchy_NoDup. apply NoDup_nil_2.
  - intros g items E.
    pose proof (fold_hierarchy_bucket (_extract_rows table) [] g) as B.
    rewrite E in B. simpl in B. subst items. split.
    + apply filter_in_group_nonempty.
      apply get_Some_keys in E. apply fold_hierarchy_keys in E as [[] | E]. exact E.
    + apply List.Forall_forall. intros r Hr.
      apply List.filter_In in Hr as [_ Hg]. now apply String.eqb_eq.
Qed.

Lemma load_hierarchy_invariant_witness :
  NoDup (PyDict.keys [("Compute", _extract_rows scenario_A_table)]).
Proof.
  apply (load_hierarchy_invariant scenario_A_table). reflexivity.
Defined.

(** ** Listing groups and products *)

Lemma insert_sorted_perm (k : string) (l : list string) :
  Permutation (insert_sorted k l) (k :: l).
Proof.
  induction l as [|x l IH]; simpl; [reflexivity|].
  destruct (String.leb k x); [reflexivity|].
  rewrite IH. apply perm_swap.
Qed.

Lemma sorted_perm (l : list string) : Permutation (sorted l) l.
Proof.
  induction l as [|x l IH]; simpl; [reflexivity|].
  rewrite insert_sorted_perm. now constructor.
Qed.

Lemma insert_sorted_Sorted (k : string) (l : list string) :
  Sorted (fun a b => String.leb a b = true) l ->
  Sorted (fun a b => String.leb a b = true) (insert_sorted k l).
Proof.
  induction l as [|x l IH]; intros H; simpl.
  - repeat constructor.
  - destruct (String.leb k x) eqn:E.
    + constructor; [exact H | now constructor].
    + apply Sorted_inv in H as [Hs Hh]. constructor; [now apply IH|].
      assert (Hx : String.leb x k = true).
      { destruct (String.leb_total x k) as [T | T]; [exact T | congruence]. }
      destruct l as [|y l]; simpl.
      * now constructor.
      * destruct (String.leb k y); constructor; [exact Hx|].
        now apply HdRel_inv in Hh.
Qed.

Lemma sorted_Sorted (l : list string) :
  Sorted (fun a b => String.leb a b = true) (sorted l).
Proof.
  induction l as [|x l IH]; simpl; [constructor|].
  now apply insert_sorted_Sorted.
Qed.

Lemma list_groups_names (hierarchy : list (string * list ProductRecord)) :
  map fst (list_groups hierarchy) = sorted (PyDict.keys hierarchy).
Proof.
  unfold list_groups. rewrite List.map_map. simpl. apply List.map_id.
Qed.

(** X3.  [list_groups] prints every group of the hierarchy once, in
    ascending order of the names, whatever the order of the hierarchy,
    each with the number of products of its bucket. *)
Theorem list_groups_sorted (hierarchy : list (string * list ProductRecord)) :
  Sorted (fun a b => String.leb a b = true) (map fst (list_groups hierarchy))
  /\ Permutation (map fst (list_groups hierarchy)) (PyDict.keys hierarchy)
  /\ forall g n,
       In (g, n) (list_groups hierarchy) ->
       n = List.length (default [] (PyDict.get g hierarchy)).
Proof.
  rewrite list_groups_names. split; [apply sorted_Sorted|].
  split; [apply sorted_perm|].
  intros g n H. unfold list_groups in H.
  apply List.in_map_iff in H as (g' & [= <- <-] & _). reflexivity.
Qed.

(** X4.  On a loaded hierarchy [list_products] returns the records parsed
    under the group, in the order of the table, and raises its error
    exactly when the table has no record under that group. *)
Theorem list_products_loaded (content table : string)
  (hierarchy : list (string * list ProductRecord)) (g : string) :
  Re.search_table content = Some table ->
  load_hierarchy content = Return hierarchy ->
  list_products hierarchy g =
  match List.filter (in_group g) (_extract_rows table) with
  | [] => Raise (ValueError ("未找到分组: " +:+ g))
  | items => Return items
  end.
Proof.
  intros Ht. rewrite load_hierarchy_unfold, Ht. intros [= <-].
  unfold list_products.
  now rewrite (fold_hierarchy_bucket (_extract_rows table) [] g).
Qed.

Lemma list_products_loaded_witness :
  list_products [("Compute", _extract_rows scenario_A_table)] "Storage"
  = Raise (ValueError ("未找到分组: " +:+ "Storage")).
Proof.
  apply (list_products_loaded scenario_A_table scenario_A_table
           [("Compute", _extract_rows scenario_A_table)] "Storage");
    reflexivity.
Defined.

(** ** Product lookup, continued *)

Lemma product_matches_iff (lower : string -> string) (r : ProductRecord) (q : string) :
  product_matches lower r q = true
  <-> product_name r = q \/ lower (product_short r) = lower q.
Proof.
  unfold product_matches. rewrite orb_true_iff, !String.eqb_eq. reflexivity.
Qed.

Lemma first_match_finds (lower : string -> string) (items : list ProductRecord) (q : string) (r : ProductRecord) :
  In r items -> product_matches lower r q = true ->
  exists r', first_match lower items q = Some r'.
Proof.
  induction items as [|x items IH]; simpl; [intros []|].
  intros [-> | Hr] Hm.
  - rewrite Hm. eauto.
  - destruct (product_matches lower x q); eauto.
Qed.

(** X5.  A query that is the name of a record of the group, or the short
    name of one in any letter case, is always resolved: [find_product]
    returns a record of the group that has this name or this short
    name. *)
Theorem find_product_resolves (lower : string -> string)
  (hierarchy : list (string * list ProductRecord)) (g q : string)
  (r : ProductRecord) :
  In r (default [] (PyDict.get g hierarchy)) ->
  product_name r = q \/ lower (product_short r) = lower q ->
  exists r',
    find_product lower hierarchy g q = Return r'
    /\ In r' (default [] (PyDict.get g hierarchy))
    /\ (product_name r' = q \/ lower (product_short r') = lower q).
Proof.
  intros Hr Hm. apply product_matches_iff in Hm.
  destruct (first_match_finds lower _ q r Hr Hm) as [r' E].
  exists r'. unfold find_product. rewrite E. split; [reflexivity|].
  apply first_match_Some in E as (before & after & Hi & _ & Hm').
  split; [|now apply product_matches_iff].
  rewrite Hi. apply List.in_or_app. right. now left.
Qed.

Lemma find_product_resolves_witness :
  exists r',
    find_product Text.ascii_lower [("Compute", _extract_rows scenario_A_table)] "Compute" "bms"
      = Return r'
    /\ In r' (_extract_rows scenario_A_table)
    /\ (product_name r' = "bms" \/ Text.ascii_lower (product_short r') = Text.ascii_lower "bms").
Proof.
  apply (find_product_resolves Text.ascii_lower [("Compute", _extract_rows scenario_A_table)]
           "Compute" "bms"
           (mkProductRecord "Compute" "Bare Metal Server" "BMS" None)).
  - right. left. reflexivity.
  - right. reflexivity.
Defined.

(** X6.  On a loaded hierarchy a product that [find_product] returns is a
    record of the table, filed under the group asked for. *)
Theorem find_product_loaded (lower : string -> string) (content table : string)
  (hierarchy : list (string * list ProductRecord)) (g q : string)
  (r : ProductRecord) :
  Re.search_table content = Some table ->
  load_hierarchy content = Return hierarchy ->
  find_product lower hierarchy g q = Return r ->
  In r (_extract_rows table) /\ group r = g.
Proof.
  intros Ht. rewrite load_hierarchy_unfold, Ht. intros [= <-].
  unfold find_product.
  rewrite (fold_hierarchy_bucket (_extract_rows table) [] g). simpl.
  destruct (first_match lower (List.filter (in_group g) (_extract_rows table)) q)
    as [r'|] eqn:E; [|discriminate].
  intros [= <-].
  apply first_match_Some in E as (before & after & Hi & _ & _).
  assert (Hin : In r' (List.filter (in_group g) (_extract_rows table))).
  { rewrite Hi. apply List.in_or_app. right. now left. }
  apply List.filter_In in Hin as [Hr Hg]. split; [exact Hr|].
  now apply String.eqb_eq.
Qed.

Lemma find_product_loaded_witness :
  In (mkProductRecord "Compute" "Image Management" "IMS" None)
     (_extract_rows scenario_A_table)
  /\ group (mkProductRecord "Compute" "Image Management" "IMS" None) = "Compute".
Proof.
  apply (find_product_loaded Text.ascii_lower scenario_A_table scenario_A_table
           [("Compute", _extract_rows scenario_A_table)] "Compute" "ims");
    reflexivity.
Defined.

(** ** Invariants of the parser *)

(** What one round of the loop can do: nothing, or add the record of a
    three-cell row, or add the record of a two-cell row under a current
    group that is not empty. *)
Lemma row_step_cases (cg : option string) (acc : list ProductRecord) (row : string) :
  row_step (cg, acc) row = (cg, acc)
  \/ (exists g p s,
        cleaned_cells row = [g; p; s]
        /\ row_step (cg, acc) row =
           (Some g,
            acc ++ [mkProductRecord (or_else (Some g) ungrouped) p s (row_repo_path row)]))
  \/ (exists g p s,
        cleaned_cells row = [p; s] /\ cg = Some g /\ g <> ""
        /\ row_step (cg, acc) row =
           (Some g, acc ++ [mkProductRecord g p s (row_repo_path row)])).
Proof.
  destruct (cleaned_cells row) as [|a [|b [|c [|d more]]]] eqn:E.
  - left. apply row_step_other; rewrite E; discriminate.
  - left. apply row_step_other; rewrite E; discriminate.
  - destruct (truthy cg) eqn:T.
    + right. right. destruct cg as [g|]; [|discriminate T].
      assert (Hg : g <> "").
      { simpl in T. now destruct (String.eqb_spec g ""). }
      exists g, a, b. repeat split; try assumption.
      now apply row_step_two.
    + left. now apply (row_step_two_skipped cg acc row a b).
  - right. left. exists a, b, c. split; [reflexivity|].
    now apply row_step_three.
  - left. apply row_step_other; rewrite E; discriminate.
Qed.

(** Invariants of the loop: [I] on the current group and [P] on the
    records. *)
Lemma extract_loop_invariant (I : option string -> Prop) (P : ProductRecord -> Prop) :
  (forall row g p s,
      cleaned_cells row = [g; p; s] ->
      I (Some g)
      /\ P (mkProductRecord (or_else (Some g) ungrouped) p s (row_repo_path row))) ->
  (forall row g p s,
      cleaned_cells row = [p; s] -> g <> "" -> I (Some g) ->
      P (mkProductRecord g p s (row_repo_path row))) ->
  forall rows cg acc,
    I cg -> Forall P acc ->
    I (fst (extract_loop (cg, acc) rows)) /\ Forall P (snd (extract_loop (cg, acc) rows)).
Proof.
  intros H3 H2. unfold extract_loop.
  induction rows as [|row rows IH]; intros cg acc HI HP; [now split|].
  cbn [fold_left].
  destruct (row_step_cases cg acc row)
    as [-> | [(g & p & s & E & ->) | (g & p & s & E & -> & Hg & ->)]].
  - now apply IH.
  - destruct (H3 row g p s E) as [HI' HP'].
    apply IH; [exact HI'|]. apply Forall_app. split; [exact HP|].
    now constructor.
  - apply IH; [exact HI|]. apply Forall_app. split; [exact HP|].
    constructor; [|constructor]. now apply (H2 row g p s).
Qed.

(** X7.  Every record the parser gives has a group that is not the empty
    string. *)
Theorem extract_rows_group_nonempty (table_html : string) :
  Forall (fun r => group r <> "") (_extract_rows table_html).
Proof.
  unfold _extract_rows.
  apply (extract_loop_invariant (fun _ => True) (fun r => group r <> "")).
  - intros row g p s _. split; [exact I|]. simpl.
    destruct (String.eqb_spec g ""); [discriminate | assumption].
  - intros row g p s _ Hg _. exact Hg.
  - exact I.
  - constructor.
Qed.

Lemma extract_loop_length (rows : list string) (cg : option string)
  (acc : list ProductRecord) :
  List.length (snd (extract_loop (cg, acc) rows)) <= List.length acc + List.length rows.
Proof.
  unfold extract_loop. revert cg acc.
  induction rows as [|row rows IH]; intros cg acc; cbn [fold_left].
  - simpl. lia.
  - destruct (row_step_cases cg acc row)
      as [-> | [(g & p & s & E & ->) | (g & p & s & E & -> & Hg & ->)]].
    + specialize (IH cg acc). simpl. lia.
    + specialize (IH (Some g)
                    (acc ++ [mkProductRecord (or_else (Some g) ungrouped) p s
                               (row_repo_path row)])).
      rewrite length_app in IH. simpl in *. lia.
    + specialize (IH (Some g) (acc ++ [mkProductRecord g p s (row_repo_path row)])).
      rewrite length_app in IH. simpl in *. lia.
Qed.

(** X8.  The parser gives at most one record per row block of the
    table. *)
Theorem extract_rows_at_most_one_per_row (table_html : string) :
  List.length (_extract_rows table_html) <= List.length (Re.findall_tr table_html).
Proof.
  unfold _extract_rows.
  pose proof (extract_loop_length (Re.findall_tr table_html) None []) as H.
  simpl in H. exact H.
Qed.

Lemma skip_from_drop (f : N -> bool) (k : nat) (s : string) :
  Text.skip_from f k s = Text.skip_class f (Text.drop_str k s).
Proof.
  revert k. induction s as [|c t IH]; intros k.
  - now destruct k.
  - destruct k as [|k]; [reflexivity|]. simpl. apply IH.
Qed.

(** One round of [skip_class]. *)
Lemma skip_class_unfold (f : N -> bool) (s : string) :
  Text.skip_class f s =
  match Text.class_width f s with
  | 0 => s
  | S w => Text.skip_class f (Text.drop_str (S w) s)
  end.
Proof.
  destruct s as [|c t]; [reflexivity|].
  unfold Text.skip_class at 1. cbn [Text.skip_from].
  destruct (Text.class_width f (String c t)) as [|w]; [reflexivity|].
  exact (skip_from_drop f w t).
Qed.

Ltac split_ifs :=
  repeat match goal with
         | H : context [if ?b then _ else _] |- _ => destruct b eqn:?
         | |- context [if ?b then _ else _] => destruct b eqn:?
         end.

(** A code point that is read needs no byte beyond its encoding. *)
Lemma code_point_append (s x : string) (n : N) (w : nat) :
  Text.code_point s = Some (n, w) ->
  Text.code_point (s +:+ x) = Some (n, w) /\ w <= String.length s.
Proof.
  destruct s as [|c1 [|c2 [|c3 [|c4 t]]]];
    rewrite ?append_cons, ?append_nil; unfold Text.code_point; intros H;
    split_ifs; try discriminate H; injection H as <- <-;
    (split; [reflexivity | simpl; lia]).
Qed.

Lemma class_width_append (f : N -> bool) (s x : string) (w : nat) :
  Text.class_width f s = S w ->
  Text.class_width f (s +:+ x) = S w /\ S w <= String.length s.
Proof.
  unfold Text.class_width.
  destruct (Text.code_point s) as [[n k]|] eqn:E; [|discriminate].
  destruct (code_point_append s x n k E) as [-> Hk].
  destruct (f n); [|discriminate]. intros ->. now split.
Qed.

Lemma length_drop_str (k : nat) (s : string) :
  String.length (Text.drop_str k s) = String.length s - k.
Proof.
  revert s. induction k as [|k IH]; intros s; simpl; [lia|].
  destruct s as [|c t]; simpl; [reflexivity | apply IH].
Qed.

(** After a text made of the class only, skipping goes on in what
    follows. *)
Lemma skip_class_append (f : N -> bool) (p x : string) :
  Text.skip_class f p = "" -> Text.skip_class f (p +:+ x) = Text.skip_class f x.
Proof.
  remember (String.length p) as n eqn:Hn. revert p Hn.
  induction n as [n IH] using lt_wf_ind. intros p Hn H.
  rewrite skip_class_unfold in H.
  destruct (Text.class_width f p) as [|w] eqn:E.
  - subst p. now rewrite append_nil.
  - destruct (class_width_append f p x w E) as [E' Hw].
    rewrite (skip_class_unfold f (p +:+ x)), E', drop_str_app_le by exact Hw.
    apply (IH (String.length (Text.drop_str (S w) p))); [|reflexivity|exact H].
    rewrite length_drop_str. lia.
Qed.

Lemma rstrip_cons (c : ascii) (t : string) :
  Text.rstrip (String c t) =
  if Text.all_space (String c t) then "" else String c (Text.rstrip t).
Proof. reflexivity. Qed.

(** What [rstrip] removes is white space. *)
Lemma rstrip_split (s : string) :
  exists w, s = Text.rstrip s +:+ w /\ Text.all_space w = true.
Proof.
  induction s as [|c t (w & Ht & Hw)].
  - now exists EmptyString.
  - rewrite rstrip_cons. destruct (Text.all_space (String c t)) eqn:E.
    + now exists (String c t).
    + exists w. split; [|exact Hw]. rewrite append_cons. now rewrite <- Ht.
Qed.

Lemma all_space_append (p w : string) :
  Text.all_space p = true -> Text.all_space w = true ->
  Text.all_space (p +:+ w) = true.
Proof.
  unfold Text.all_space, Text.lstrip. rewrite !String.eqb_eq.
  intros Hp Hw. now rewrite skip_class_append.
Qed.

Lemma rstrip_idempotent (s : string) : Text.rstrip (Text.rstrip s) = Text.rstrip s.
Proof.
  induction s as [|c t IH]; [reflexivity|].
  rewrite rstrip_cons. destruct (Text.all_space (String c t)) eqn:E; [reflexivity|].
  rewrite rstrip_cons, IH.
  destruct (Text.all_space (String c (Text.rstrip t))) eqn:F; [|reflexivity].
  destruct (rstrip_split t) as (w & Ht & Hw).
  pose proof (all_space_append _ _ F Hw) as A.
  rewrite append_cons, <- Ht in A. congruence.
Qed.

(** What [lstrip] gives does not start with white space. *)
Lemma lstrip_head (s : string) :
  Text.class_width Text.is_space (Text.lstrip s) = 0.
Proof.
  unfold Text.lstrip.
  remember (String.length s) as n eqn:Hn. revert s Hn.
  induction n as [n IH] using lt_wf_ind. intros s Hn.
  rewrite skip_class_unfold.
  destruct (Text.class_width Text.is_space s) as [|w] eqn:E; [exact E|].
  destruct (class_width_append Text.is_space s "" w E) as [_ Hw].
  apply (IH (String.length (Text.drop_str (S w) s))); [|reflexivity].
  rewrite length_drop_str. lia.
Qed.

Lemma strip_idempotent (s : string) : Text.strip (Text.strip s) = Text.strip s.
Proof.
  unfold Text.strip.
  assert (L : Text.lstrip (Text.rstrip (Text.lstrip s)) = Text.rstrip (Text.lstrip s)).
  { pose proof (lstrip_head s) as H.
    destruct (rstrip_split (Text.lstrip s)) as (w & Hs & _).
    unfold Text.lstrip at 1. rewrite skip_class_unfold.
    destruct (Text.class_width Text.is_space (Text.rstrip (Text.lstrip s)))
      as [|k] eqn:E; [reflexivity|].
    destruct (class_width_append _ _ w _ E) as [E' _].
    rewrite <- Hs in E'. congruence. }
  rewrite L. apply rstrip_idempotent.
Qed.

Lemma cleaned_cells_stripped (row : string) :
  Forall (fun c => Text.strip c = c) (cleaned_cells row).
Proof.
  unfold cleaned_cells. apply List.Forall_forall. intros c Hc.
  apply List.in_map_iff in Hc as (col & <- & _). apply strip_idempotent.
Qed.

(** X9.  The group, the name and the short name of every record the
    parser gives carry no white space at either end. *)
Theorem extract_rows_stripped (table_html : string) :
  Forall stripped_record (_extract_rows table_html).
Proof.
  unfold _extract_rows.
  apply (extract_loop_invariant
           (fun cg => forall g, cg = Some g -> Text.strip g = g) stripped_record).
  - intros row g p s E. pose proof (cleaned_cells_stripped row) as H.
    rewrite E in H. apply Forall_cons in H as [Hg H].
    apply Forall_cons in H as [Hp H]. apply Forall_cons in H as [Hs _].
    split; [now intros ? [= <-]|]. repeat split; simpl; try assumption.
    destruct (String.eqb_spec g ""); [reflexivity | assumption].
  - intros row g p s E _ HI. pose proof (cleaned_cells_stripped row) as H.
    rewrite E in H. apply Forall_cons in H as [Hp H].
    apply Forall_cons in H as [Hs _].
    repeat split; simpl; try assumption. now apply HI.
  - discriminate.
  - constructor.
Qed.

(** ** The command line of [hierarchy_query.py] *)



(** X10.  [main] changes nothing outside the process unless collection is
    asked for on a resolved product: with [--list-groups], without
    [--collect-api], or without both a group and a product, the files and
    the trace of effects are left as they were. *)
Theorem main_read_only (lower : string -> string)
  (session : string -> list string -> session_outcome)
  (executable mcp_collect content : string) (args : Args) (w : world) :
  snd (HierarchyQuery.main session executable mcp_collect lower content args w) <> w ->
  arg_collect_api args = true
  /\ arg_list_groups args = false
  /\ truthy (arg_group args) = true
  /\ truthy (arg_product args) = true.
Proof.
  unfold HierarchyQuery.main.
  destruct (load_hierarchy content) as [hierarchy|e]; [|simpl; congruence].
  destruct (arg_list_groups args); [simpl; congruence|].
  destruct (truthy (arg_group args)); simpl; [|congruence].
  destruct (truthy (arg_product args)); simpl.
  - destruct (find_product lower hierarchy (default "" (arg_group args))
                (default "" (arg_product args))); [|simpl; congruence].
    destruct (arg_collect_api args); [now intros _|simpl; congruence].
  - destruct (list_products hierarchy (default "" (arg_group args)));
      simpl; congruence.
Qed.

Lemma main_read_only_witness :
  arg_collect_api (mkArgs false (Some "Storage") (Some "obs") true "out.json" false) = true
  /\ arg_list_groups (mkArgs false (Some "Storage") (Some "obs") true "out.json" false) = false
  /\ truthy (Some "Storage") = true
  /\ truthy (Some "obs") = true.
Proof.
  apply (main_read_only Text.ascii_lower one_tool_session "python3" "mcp_collect.py"
           ("<table><tr><td>Storage</td><td><a href=" +:+ String Text.dquote ""
            +:+ "https://host/mcp-server/tree/master-dev/srv/mcp_server_obs"
            +:+ String Text.dquote "" +:+ ">Object Storage Service</a></td>"
            +:+ "<td>OBS</td></tr></table>")
           (mkArgs false (Some "Storage") (Some "obs") true "out.json" false)
           (mkWorld ∅ [])).
  vm_compute. intros E. discriminate E.
Defined.

(** X11.  Without a table in the document every operation of [main] stops
    on the format error, before anything else is done. *)
Theorem main_without_table (lower : string -> string)
  (session : string -> list string -> session_outcome)
  (executable mcp_collect content : string) (args : Args) (w : world) :
  ~ has_table content ->
  HierarchyQuery.main session executable mcp_collect lower content args w
  = (Raise (RuntimeError no_table_message), w).
Proof.
  intros H. unfold HierarchyQuery.main. rewrite load_hierarchy_unfold.
  destruct (Re.search_table content) as [table|] eqn:E; [|reflexivity].
  exfalso. apply H. eapply search_table_region, E.
Qed.

Lemma main_without_table_witness :
  HierarchyQuery.main one_tool_session "python3" "mcp_collect.py" Text.ascii_lower "# no catalog here"
    (mkArgs true None None true "out.json" false) (mkWorld ∅ [])
  = (Raise (RuntimeError no_table_message), mkWorld ∅ []).
Proof.
  apply (main_without_table Text.ascii_lower).
  intros (pre & mid & post & E).
  pose proof (find_sub_occurs "<table" pre (mid +:+ "</table>" +:+ post))
    as (b & z & F).
  rewrite <- E in F. vm_compute in F. discriminate F.
Defined.





(** * Further properties of [mcp_collect.py] *)

Lemma set_absent {V : Type} (k : string) (v : V) (d : list (string * V)) :
  ~ In k (PyDict.keys d) -> PyDict.set k v d = d ++ [(k, v)].
Proof.
  induction d as [|[k0 v0] d IH]; simpl; intros H; [reflexivity|].
  destruct (String.eqb_spec k0 k) as [->|_]; [exfalso; apply H; now left|].
  rewrite IH; [reflexivity|]. intros Hin. apply H. now right.
Qed.

Lemma fold_add_tool_distinct (tools : list Tool) (schemas : list (string * json)) :
  NoDup (PyDict.keys schemas ++ map name tools) ->
  fold_left add_tool tools schemas =
  schemas ++ map (fun t => (name t, JObj (tool_entry t))) tools.
Proof.
  revert schemas. induction tools as [|tool tools IH]; intros schemas H; simpl.
  - now rewrite app_nil_r.
  - rewrite add_tool_entry, set_absent.
    + rewrite IH, <- app_assoc; [reflexivity|].
      unfold PyDict.keys in *. rewrite List.map_app, <- app_assoc. exact H.
    + apply NoDup_app in H as (_ & H & _). intros Hin.
      apply (H (name tool)); [now apply list_elem_of_In | now left].
Qed.

(** X14.  When the tools listed have distinct names, the mapping returned
    has one entry per tool, in the order of the listing. *)
Theorem get_server_schemas_discovery_order
  (session : string -> list string -> session_outcome)
  (server_command : string) (args : option (list string)) (tools : list Tool) :
  session server_command (default [] args) = Listed tools ->
  NoDup (map name tools) ->
  get_server_schemas session server_command args
  = Return (map (fun t => (name t, JObj (tool_entry t))) tools).
Proof.
  intros Hs Hn. unfold get_server_schemas. rewrite Hs.
  now rewrite (fold_add_tool_distinct tools []).
Qed.

Lemma get_server_schemas_discovery_order_witness :
  get_server_schemas
    (fun _ _ => Listed [mkTool "b" (JStr "second letter") None None;
                        mkTool "a" (JStr "first letter") (Some (JObj [("type", JStr "object")])) None])
    "mcp-server-ecs" None
  = Return [("b", JObj [("description", JStr "second letter"); ("inputSchema", JNull)]);
            ("a", JObj [("description", JStr "first letter");
                        ("inputSchema", JObj [("type", JStr "object")]);
                        ("parameters", JObj [])])].
Proof.
  apply (get_server_schemas_discovery_order
           (fun _ _ => Listed [mkTool "b" (JStr "second letter") None None;
                               mkTool "a" (JStr "first letter")
                                 (Some (JObj [("type", JStr "object")])) None])
           "mcp-server-ecs" None
           [mkTool "b" (JStr "second letter") None None;
            mkTool "a" (JStr "first letter")
              (Some (JObj [("type", JStr "object")])) None]).
  - reflexivity.
  - apply NoDup_cons. split; [|apply NoDup_singleton].
    intros H. apply list_elem_of_In in H as [E | []]. discriminate E.
Defined.

Lemma set_length {V : Type} (k : string) (v : V) (d : list (string * V)) :
  List.length (PyDict.set k v d) <= S (List.length d).
Proof.
  induction d as [|[k0 v0] d IH]; simpl; [lia|].
  destruct (String.eqb k0 k); simpl; lia.
Qed.

Lemma fold_add_tool_wf (tools : list Tool) (schemas : list (string * json)) :
  NoDup (PyDict.keys schemas) ->
  NoDup (PyDict.keys (fold_left add_tool tools schemas))
  /\ List.length (fold_left add_tool tools schemas)
     <= List.length schemas + List.length tools.
Proof.
  revert schemas. induction tools as [|tool tools IH]; intros schemas H; simpl.
  - split; [exact H | lia].
  - rewrite add_tool_entry.
    destruct (IH (PyDict.set (name tool) (JObj (tool_entry tool)) schemas))
      as [Hn Hl]; [now apply keys_set_NoDup|].
    split; [exact Hn|].
    pose proof (set_length (name tool) (JObj (tool_entry tool)) schemas). lia.
Qed.

(** X15.  Whatever names the listing repeats, the mapping returned has
    exactly one entry for each distinct name of the listing: no key
    twice, the keys are the names listed, and their number is the number
    of distinct names. *)
Theorem get_server_schemas_well_formed
  (session : string -> list string -> session_outcome)
  (server_command : string) (args : option (list string)) (tools : list Tool)
  (schemas : list (string * json)) :
  session server_command (default [] args) = Listed tools ->
  get_server_schemas session server_command args = Return schemas ->
  NoDup (PyDict.keys schemas)
  /\ (forall k, In k (PyDict.keys schemas) <-> In k (map name tools))
  /\ List.length schemas = List.length (remove_dups (map name tools)).
Proof.
  intros Hs. unfold get_server_schemas. rewrite Hs. intros [= <-].
  destruct (fold_add_tool_wf tools []) as [Hn _]; [apply NoDup_nil_2|].
  assert (Hk : forall k, In k (PyDict.keys (fold_left add_tool tools []))
                         <-> In k (map name tools)).
  { intros k. rewrite fold_add_tool_keys, List.in_map_iff. simpl.
    split; [intros [[] | (t & Ht & E)] | intros (t & E & Ht)]; eauto. }
  split; [exact Hn|]. split; [exact Hk|].
  transitivity (List.length (PyDict.keys (fold_left add_tool tools []))).
  { unfold PyDict.keys. now rewrite length_map. }
  apply Permutation_length, NoDup_Permutation.
  - exact Hn.
  - apply NoDup_remove_dups.
  - intros k. rewrite elem_of_remove_dups, !list_elem_of_In. apply Hk.
Qed.

Lemma get_server_schemas_well_formed_witness :
  NoDup ["list"; "show"]
  /\ (forall k, In k ["list"; "show"] <-> In k ["list"; "show"; "list"])
  /\ 2 = List.length (remove_dups ["list"; "show"; "list"]).
Proof.
  apply (get_server_schemas_well_formed
           (fun _ _ => Listed [mkTool "list" (JStr "first") None None;
                               mkTool "show" (JStr "") None None;
                               mkTool "list" (JStr "second")
                                 (Some (JObj [("type", JStr "object")])) None])
           "mcp-server-ecs" None
           [mkTool "list" (JStr "first") None None;
            mkTool "show" (JStr "") None None;
            mkTool "list" (JStr "second") (Some (JObj [("type", JStr "object")])) None]
           [("list", JObj [("description", JStr "second");
                           ("inputSchema", JObj [("type", JStr "object")]);
                           ("parameters", JObj [])]);
            ("show", JObj [("description", JStr ""); ("inputSchema", JNull)])]);
    reflexivity.
Defined.

Lemma filter_add_tool_entries (f : Tool -> bool) (g : string * json -> bool)
  (tools : list Tool) :
  (forall t, g (name t, JObj (tool_entry t)) = f t) ->
  List.length (List.filter g (map (fun t => (name t, JObj (tool_entry t))) tools))
  = List.length (List.filter f tools).
Proof.
  intros H. induction tools as [|t tools IH]; simpl; [reflexivity|].
  rewrite H. destruct (f t); simpl; now rewrite IH.
Qed.

Lemma entry_has_schema_tool (t : Tool) :
  entry_has_schema (JObj (tool_entry t)) = has_input_schema t.
Proof.
  unfold tool_entry, has_input_schema.
  destruct (inputSchema t) as [schema|]; [|reflexivity].
  destruct (json_truthy schema) eqn:E; simpl; [exact E | reflexivity].
Qed.

(** X16.  For a listing of tools with distinct names, the report of
    [main] counts all the tools, and as tools with a schema those whose
    input schema upstream counts as true; the rest are reported without
    schema, an empty schema among them. *)
Theorem schema_report_counts
  (session : string -> list string -> session_outcome)
  (command : string) (args : list string) (tools : list Tool)
  (schemas : list (string * json)) :
  session command args = Listed tools ->
  NoDup (map name tools) ->
  get_server_schemas session command (Some args) = Return schemas ->
  schema_report schemas =
  (List.length tools,
   List.length (List.filter has_input_schema tools),
   List.length (List.filter (fun t => negb (has_input_schema t)) tools)).
Proof.
  intros Hs Hn. unfold get_server_schemas. simpl. rewrite Hs.
  rewrite (fold_add_tool_distinct tools []) by exact Hn. simpl.
  intros [= <-]. unfold schema_report.
  rewrite (filter_add_tool_entries has_input_schema) by (intros t; apply entry_has_schema_tool).
  rewrite length_map. f_equal.
  clear. induction tools as [|t tools IH]; simpl; [reflexivity|].
  destruct (has_input_schema t); simpl.
  - exact IH.
  - pose proof (List.filter_length_le has_input_schema tools) as L.
    rewrite <- IH. lia.
Qed.

Lemma schema_report_counts_witness :
  schema_report
    [("b", JObj [("description", JStr "second letter"); ("inputSchema", JNull)]);
     ("a", JObj [("description", JStr "first letter");
                 ("inputSchema", JObj [("type", JStr "object")]);
                 ("parameters", JObj [])]);
     ("c", JObj [("description", JNull); ("inputSchema", JNull)])]
  = (3, 1, 2).
Proof.
  apply (schema_report_counts
           (fun _ _ => Listed [mkTool "b" (JStr "second letter") None None;
                               mkTool "a" (JStr "first letter")
                                 (Some (JObj [("type", JStr "object")])) None;
                               mkTool "c" JNull (Some (JObj [])) (Some (JObj []))])
           "mcp-server-ecs" []
           [mkTool "b" (JStr "second letter") None None;
            mkTool "a" (JStr "first letter")
              (Some (JObj [("type", JStr "object")])) None;
            mkTool "c" JNull (Some (JObj [])) (Some (JObj []))]).
  - reflexivity.
  - repeat (apply NoDup_cons; split;
            [intros H; repeat (apply elem_of_cons in H as [H | H]; [discriminate H|]);
             now apply elem_of_nil in H|]).
    apply NoDup_nil_2.
  - reflexivity.
Defined.

(** * Further properties of the command inference *)

(** X17.  When the final segment of the repository path is the prefix
    [mcp_server_] followed by a text in which that prefix does not occur,
    the command inferred is [mcp-server-] followed by that text. *)
Theorem infer_server_command_strips_prefix (record : ProductRecord)
  (path rest : string) :
  repo_path record = Some path ->
  Text.path_name path = "mcp_server_" +:+ rest ->
  Text.contains "mcp_server_" rest = false ->
  infer_server_command record = Some ("mcp-server-" +:+ rest).
Proof.
  intros Hp Hn Hr. unfold infer_server_command. rewrite Hp.
  destruct (String.eqb_spec path "") as [->|_]; [discriminate Hn|].
  rewrite Hn, prefix_append, remove_all_leading, remove_all_absent by exact Hr.
  reflexivity.
Qed.

Lemma infer_server_command_strips_prefix_witness :
  infer_server_command
    (mkProductRecord "Compute" "Elastic Cloud Server" "ECS"
       (Some "huaweicloud_services_server/mcp_server_ecs/"))
  = Some ("mcp-server-" +:+ "ecs").
Proof.
  apply (infer_server_command_strips_prefix _
           "huaweicloud_services_server/mcp_server_ecs/" "ecs");
    reflexivity.
Defined.

Lemma has_char_append (c : ascii) (a b : string) :
  has_char c (a +:+ b) = has_char c a || has_char c b.
Proof.
  induction a as [|x a IH]; [reflexivity|].
  rewrite append_cons. simpl. now rewrite IH, orb_assoc.
Qed.

Lemma split_slash_no_slash (s : string) :
  Forall (fun seg => has_char Text.slash seg = false) (Text.split_slash s).
Proof.
  induction s as [|c t IH]; simpl.
  - now constructor.
  - destruct (Ascii.eqb c Text.slash) eqn:E; [now constructor|].
    destruct (Text.split_slash t) as [|seg segs].
    + constructor; [|constructor]. simpl. now rewrite E.
    + apply Forall_cons in IH as [Hs Hr]. constructor; [|exact Hr].
      simpl. now rewrite E, Hs.
Qed.

Lemma path_name_no_slash (s : string) : has_char Text.slash (Text.path_name s) = false.
Proof.
  unfold Text.path_name.
  match goal with |- context [last ?l] => destruct (last l) as [x|] eqn:E end;
    [|reflexivity].
  apply last_Some_elem_of, list_elem_of_filter in E as [_ E].
  pose proof (split_slash_no_slash s) as H.
  rewrite List.Forall_forall in H. apply H. now apply list_elem_of_In.
Qed.

Lemma remove_from_zero (old : string) (x : ascii) (t : string) :
  Text.remove_from old 0 (String x t) =
  if String.prefix old (String x t)
  then Text.remove_from old (String.length old - 1) t
  else String x (Text.remove_from old 0 t).
Proof. reflexivity. Qed.

Lemma remove_from_no_char (c : ascii) (old s : string) (k : nat) :
  has_char c s = false -> has_char c (Text.remove_from old k s) = false.
Proof.
  revert k. induction s as [|x t IH]; intros k H; [reflexivity|].
  simpl in H. apply orb_false_iff in H as [Hx Ht].
  destruct k as [|k]; [|now apply IH].
  rewrite remove_from_zero.
  destruct (String.prefix old (String x t)); [now apply IH|].
  simpl. rewrite Hx. now apply IH.
Qed.

(** X18.  A command that is inferred is a bare program name: it starts
    with [mcp-server-] and holds no path separator. *)
Theorem infer_server_command_bare_name (record : ProductRecord) (command : string) :
  infer_server_command record = Some command ->
  String.prefix "mcp-server-" command = true
  /\ has_char Text.slash command = false.
Proof.
  unfold infer_server_command.
  destruct (repo_path record) as [path|]; [|discriminate].
  destruct (String.eqb path ""); [discriminate|].
  destruct (String.prefix "mcp_server_" (Text.path_name path)); [|discriminate].
  intros [= <-]. split; [apply prefix_append|].
  rewrite has_char_append. unfold Text.remove_all.
  rewrite remove_from_no_char by apply path_name_no_slash. reflexivity.
Qed.

Lemma infer_server_command_bare_name_witness :
  String.prefix "mcp-server-" "mcp-server-obs" = true
  /\ has_char Text.slash "mcp-server-obs" = false.
Proof.
  apply (infer_server_command_bare_name obs_record). reflexivity.
Defined.

(** * The parser on the markup of a plain table *)

Lemma prefix_cons (a b : ascii) (p s : string) :
  String.prefix (String a p) (String b s) =
  if ascii_dec a b then String.prefix p s else false.
Proof. reflexivity. Qed.

(** A search for a tag passes over plain text. *)
Lemma find_sub_plain (p' c rest : string) :
  plain c ->
  Text.find_sub (String "<" p') (c +:+ rest) =
  match Text.find_sub (String "<" p') rest with
  | Some (b, a) => Some (c +:+ b, a)
  | None => None
  end.
Proof.
  unfold plain. induction c as [|x c IH]; intros H.
  - rewrite append_nil. now destruct (Text.find_sub (String "<" p') rest) as [[b a]|].
  - simpl in H. apply orb_false_iff in H as [Hx Hc].
    rewrite append_cons, find_sub_cons.
    assert (E : String.prefix (String "<" p') (String x (c +:+ rest)) = false).
    { rewrite prefix_cons.
      destruct (ascii_dec "<" x) as [<-|_]; [discriminate Hx | reflexivity]. }
    rewrite E, (IH Hc).
    now destruct (Text.find_sub (String "<" p') rest) as [[b a]|].
Qed.

Lemma find_sub_here (p rest : string) :
  p <> "" -> Text.find_sub p (p +:+ rest) = Some (EmptyString, rest).
Proof.
  intros Hp. destruct p as [|x p]; [contradiction|].
  rewrite append_cons, find_sub_cons, <- append_cons, prefix_append, drop_str_append.
  reflexivity.
Qed.

(** The closing tag found after a plain cell is the one that follows it. *)
Lemma find_td_close (c rest : string) :
  plain c -> Text.find_sub "</td>" (c +:+ "</td>" +:+ rest) = Some (c, rest).
Proof.
  intros H. rewrite (find_sub_plain _ c _ H), find_sub_here by discriminate.
  now rewrite append_empty_r.
Qed.

Lemma td_open_plain (x : string) : Re.td_open ("<td>" +:+ x) = Some x.
Proof. reflexivity. Qed.

Lemma findall_td_render (cells : list string) (fuel : nat) :
  Forall plain cells -> List.length cells <= fuel ->
  Re.findall_td_from fuel (render_cells cells) = cells.
Proof.
  intros H. revert fuel. induction H as [|c cells Hc _ IH]; intros fuel Hf.
  - destruct fuel; reflexivity.
  - destruct fuel as [|fuel]; [simpl in Hf; lia|].
    cbn [render_cells]. unfold render_cell.
    rewrite !append_assoc.
    change ("<td>" +:+ c +:+ "</td>" +:+ render_cells cells)
      with (String "<" ("td>" +:+ c +:+ "</td>" +:+ render_cells cells)).
    cbn [Re.findall_td_from].
    change (String "<" ("td>" +:+ c +:+ "</td>" +:+ render_cells cells))
      with ("<td>" +:+ c +:+ "</td>" +:+ render_cells cells).
    rewrite td_open_plain, (find_td_close c _ Hc), IH by (simpl in Hf; lia).
    reflexivity.
Qed.

Lemma render_cells_length (cells : list string) :
  List.length cells <= String.length (render_cells cells).
Proof.
  induction cells as [|c cells IH]; simpl; [lia|].
  unfold render_cell. rewrite !length_append. simpl. lia.
Qed.

Lemma sub_tags_plain_from (c : string) (fuel : nat) :
  plain c -> String.length c <= fuel -> Re.sub_tags_from fuel c = c.
Proof.
  unfold plain. revert fuel. induction c as [|x c IH]; intros fuel H Hf.
  - destruct fuel; reflexivity.
  - destruct fuel as [|fuel]; [simpl in Hf; lia|].
    simpl in H. apply orb_false_iff in H as [Hx Hc].
    simpl. rewrite Hx, IH; [reflexivity | exact Hc | simpl in Hf; lia].
Qed.

(** X19.  The cells of a row are read back from its markup: for plain
    cells without white space at either end, [cleaned] is the list of the
    cells. *)
Theorem cleaned_cells_render (cells : list string) :
  Forall clean_cell cells -> cleaned_cells (render_cells cells) = cells.
Proof.
  intros H. unfold cleaned_cells, Re.findall_td.
  rewrite findall_td_render.
  - induction H as [|c cells [Hp Hs] _ IH]; [reflexivity|].
    cbn [map]. rewrite IH. f_equal.
    unfold Re.sub_tags. rewrite sub_tags_plain_from by (try exact Hp; lia).
    exact Hs.
  - eapply Forall_impl; [exact H|]. now intros c [Hp _].
  - apply render_cells_length.
Qed.

Lemma cleaned_cells_render_witness :
  cleaned_cells (render_cells ["Compute"; "Elastic Cloud Server"; "ECS"])
  = ["Compute"; "Elastic Cloud Server"; "ECS"].
Proof.
  apply cleaned_cells_render.
  repeat constructor.
Defined.

(** A search for a tag passes over another tag: [<], then plain text. *)
Lemma find_sub_skip_tag (p' tail y : string) :
  plain tail ->
  String.prefix (String "<" p') (String "<" (tail +:+ y)) = false ->
  Text.find_sub (String "<" p') (String "<" tail +:+ y) =
  match Text.find_sub (String "<" p') y with
  | Some (b, a) => Some (String "<" tail +:+ b, a)
  | None => None
  end.
Proof.
  intros Ht Hp. rewrite append_cons, find_sub_cons, Hp, (find_sub_plain _ tail _ Ht).
  now destruct (Text.find_sub (String "<" p') y) as [[b a]|].
Qed.

Lemma find_sub_skip_cells (p' : string) (cells : list string) (y : string) :
  Forall plain cells ->
  (forall z, String.prefix (String "<" p') ("<td>" +:+ z) = false) ->
  (forall z, String.prefix (String "<" p') ("</td>" +:+ z) = false) ->
  Text.find_sub (String "<" p') (render_cells cells +:+ y) =
  match Text.find_sub (String "<" p') y with
  | Some (b, a) => Some (render_cells cells +:+ b, a)
  | None => None
  end.
Proof.
  intros H Ho Hc. induction H as [|c cells Hpl _ IH].
  - cbn [render_cells]. rewrite append_nil.
    now destruct (Text.find_sub (String "<" p') y) as [[b a]|].
  - cbn [render_cells]. unfold render_cell. rewrite !append_assoc.
    change ("<td>" +:+ c +:+ "</td>" +:+ render_cells cells +:+ y)
      with (String "<" "td>" +:+ (c +:+ "</td>" +:+ render_cells cells +:+ y)).
    rewrite find_sub_skip_tag; [|reflexivity|apply Ho].
    rewrite (find_sub_plain _ c _ Hpl).
    change ("</td>" +:+ render_cells cells +:+ y)
      with (String "<" "/td>" +:+ (render_cells cells +:+ y)).
    rewrite find_sub_skip_tag; [|reflexivity|apply Hc].
    rewrite IH.
    destruct (Text.find_sub (String "<" p') y) as [[b a]|]; [|reflexivity].
    f_equal. f_equal. now rewrite !append_assoc.
Qed.

(** The closing tag found after the cells of a row is the one of the
    row. *)
Lemma find_tr_close (cells : list string) (more : string) :
  Forall plain cells ->
  Text.find_sub "</tr>" (render_cells cells +:+ "</tr>" +:+ more)
  = Some (render_cells cells, more).
Proof.
  intros H.
  rewrite (find_sub_skip_cells _ cells _ H) by reflexivity.
  rewrite find_sub_here by discriminate. now rewrite append_empty_r.
Qed.

Lemma findall_tr_render (rows : list (list string)) (tail : string) (fuel : nat) :
  Forall (Forall plain) rows ->
  List.length rows <= fuel ->
  Text.find_sub "<tr>" tail = None ->
  Re.findall_tr_from fuel (render_rows rows +:+ tail) = map render_cells rows.
Proof.
  intros H. revert fuel. induction H as [|cells rows Hc _ IH]; intros fuel Hf Ht.
  - cbn [render_rows]. rewrite append_nil.
    destruct fuel; [reflexivity|]. simpl. now rewrite Ht.
  - destruct fuel as [|fuel]; [simpl in Hf; lia|].
    cbn [render_rows Re.findall_tr_from]. rewrite !append_assoc.
    rewrite find_sub_here by discriminate.
    rewrite (find_tr_close cells _ Hc), IH by (try exact Ht; simpl in Hf; lia).
    reflexivity.
Qed.

Lemma render_rows_length (rows : list (list string)) :
  List.length rows <= String.length (render_rows rows).
Proof.
  induction rows as [|cells rows IH]; simpl; [lia|].
  rewrite !length_append. simpl. lia.
Qed.

Lemma findall_tr_skip_table_tag (fuel : nat) (y : string) :
  Re.findall_tr_from fuel ("<table>" +:+ y) = Re.findall_tr_from fuel y.
Proof.
  destruct fuel as [|fuel]; [reflexivity|].
  cbn [Re.findall_tr_from].
  change ("<table>" +:+ y) with (String "<" "table>" +:+ y).
  rewrite find_sub_skip_tag by reflexivity.
  now destruct (Text.find_sub "<tr>" y) as [[b a]|].
Qed.

(** X20.  The rows of a table are read back from its markup: for rows of
    plain cells, the row blocks found are the cell markups of the rows, in
    order. *)
Theorem findall_tr_render_table (rows : list (list string)) :
  Forall (Forall plain) rows ->
  Re.findall_tr (render_table rows) = map render_cells rows.
Proof.
  intros H. unfold Re.findall_tr, render_table.
  rewrite findall_tr_skip_table_tag. apply findall_tr_render.
  - exact H.
  - rewrite !length_append. pose proof (render_rows_length rows). lia.
  - reflexivity.
Qed.

Lemma findall_tr_render_table_witness :
  Re.findall_tr (render_table [["Compute"; "Elastic Cloud Server"; "ECS"]; ["Bare Metal Server"; "BMS"]])
  = ["<td>Compute</td><td>Elastic Cloud Server</td><td>ECS</td>";
     "<td>Bare Metal Server</td><td>BMS</td>"].
Proof.
  apply (findall_tr_render_table
           [["Compute"; "Elastic Cloud Server"; "ECS"]; ["Bare Metal Server"; "BMS"]]).
  repeat constructor.
Defined.

Lemma find_sub_skip_rows (p' : string) (rows : list (list string)) (y : string) :
  Forall (Forall plain) rows ->
  (forall z, String.prefix (String "<" p') ("<td>" +:+ z) = false) ->
  (forall z, String.prefix (String "<" p') ("</td>" +:+ z) = false) ->
  (forall z, String.prefix (String "<" p') ("<tr>" +:+ z) = false) ->
  (forall z, String.prefix (String "<" p') ("</tr>" +:+ z) = false) ->
  Text.find_sub (String "<" p') (render_rows rows +:+ y) =
  match Text.find_sub (String "<" p') y with
  | Some (b, a) => Some (render_rows rows +:+ b, a)
  | None => None
  end.
Proof.
  intros H Hdo Hdc Hro Hrc. induction H as [|cells rows Hc _ IH].
  - cbn [render_rows]. rewrite append_nil.
    now destruct (Text.find_sub (String "<" p') y) as [[b a]|].
  - cbn [render_rows]. rewrite !append_assoc.
    change ("<tr>" +:+ render_cells cells +:+ "</tr>" +:+ render_rows rows +:+ y)
      with (String "<" "tr>" +:+ (render_cells cells +:+ "</tr>" +:+ render_rows rows +:+ y)).
    rewrite find_sub_skip_tag; [|reflexivity|apply Hro].
    rewrite (find_sub_skip_cells _ cells _ Hc Hdo Hdc).
    change ("</tr>" +:+ render_rows rows +:+ y)
      with (String "<" "/tr>" +:+ (render_rows rows +:+ y)).
    rewrite find_sub_skip_tag; [|reflexivity|apply Hrc].
    rewrite IH.
    destruct (Text.find_sub (String "<" p') y) as [[b a]|]; [|reflexivity].
    f_equal. f_equal. now rewrite !append_assoc.
Qed.

(** X21.  In a document that holds the markup of a table of plain cells
    after a text without [<], the table region found is that markup,
    whatever follows it. *)
Theorem search_table_render (pre post : string) (rows : list (list string)) :
  plain pre ->
  Forall (Forall plain) rows ->
  Re.search_table (pre +:+ render_table rows +:+ post) = Some (render_table rows).
Proof.
  intros Hpre H. unfold Re.search_table, render_table.
  rewrite (find_sub_plain _ pre _ Hpre), !append_assoc.
  change ("<table>" +:+ render_rows rows +:+ "</table>" +:+ post)
    with ("<table" +:+ (">" +:+ render_rows rows +:+ "</table>" +:+ post)).
  rewrite find_sub_here by discriminate.
  rewrite (find_sub_plain _ ">" _ eq_refl).
  rewrite (find_sub_skip_rows _ rows _ H) by reflexivity.
  rewrite find_sub_here by discriminate.
  now rewrite append_empty_r.
Qed.

Lemma search_table_render_witness :
  Re.search_table ("# Catalog " +:+ render_table [["Compute"; "ECS"; "ecs"]] +:+ "</table> end")
  = Some "<table><tr><td>Compute</td><td>ECS</td><td>ecs</td></tr></table>".
Proof.
  apply (search_table_render "# Catalog " "</table> end" [["Compute"; "ECS"; "ecs"]]).
  - reflexivity.
  - repeat constructor.
Defined.

Lemma prefix_has_char (c : ascii) (p s : string) :
  String.prefix p s = true -> has_char c p = true -> has_char c s = true.
Proof.
  intros Hp Hc. rewrite (prefix_split p s Hp), has_char_append, Hc. reflexivity.
Qed.

Lemma search_href_no_quote (row : string) :
  has_char Text.dquote row = false -> Re.search_href row = None.
Proof.
  induction row as [|x row IH]; intros H.
  - reflexivity.
  - assert (E : String.prefix ("href=" +:+ String Text.dquote "") (String x row) = false).
    { destruct (String.prefix ("href=" +:+ String Text.dquote "") (String x row)) eqn:E;
        [|reflexivity].
      apply (prefix_has_char Text.dquote) in E; [congruence | reflexivity]. }
    cbn [Re.search_href]. rewrite E. apply IH.
    simpl in H. now apply orb_false_iff in H as [_ H].
Qed.

Lemma render_cells_no_quote (cells : list string) :
  Forall text_cell cells -> has_char Text.dquote (render_cells cells) = false.
Proof.
  induction 1 as [|c cells [_ Hq] _ IH]; [reflexivity|].
  cbn [render_cells]. unfold render_cell.
  now rewrite !has_char_append, Hq, IH.
Qed.

Lemma row_repo_path_text (cells : list string) :
  Forall text_cell cells -> row_repo_path (render_cells cells) = None.
Proof.
  intros H. unfold row_repo_path.
  now rewrite search_href_no_quote by now apply render_cells_no_quote.
Qed.

Lemma fold_hierarchy_same_group (g : string) (items l : list ProductRecord) :
  Forall (fun r => group r = g) items ->
  fold_left hierarchy_add items [(g, l)] = [(g, l ++ items)].
Proof.
  intros H. revert l. induction H as [|r items Hr _ IH]; intros l; simpl.
  - now rewrite app_nil_r.
  - unfold hierarchy_add at 2. rewrite Hr. simpl. rewrite String.eqb_refl.
    simpl. now rewrite IH, <- app_assoc.
Qed.

(** Closes [Forall P [x1; ...; xn]] from hypotheses on the elements. *)
Ltac forall_list :=
  repeat first [apply List.Forall_nil | apply List.Forall_cons; [try assumption|]].

(** X22.  From document to hierarchy.  For a table of one group, a
    three-cell row with a group cell that is not empty followed by any
    number of two-cell rows, all of cells of text, the hierarchy loaded has
    that group alone, with one product per row in the order of the
    rows. *)
Theorem load_hierarchy_one_group (pre post g p s : string)
  (others : list (string * string)) :
  plain pre ->
  g <> "" ->
  text_cell g -> text_cell p -> text_cell s ->
  Forall (fun o => text_cell (fst o) /\ text_cell (snd o)) others ->
  load_hierarchy (pre +:+ render_table (group_rows g p s others) +:+ post)
    = Return [(g, group_records g p s others)]
  /\ list_groups [(g, group_records g p s others)] = [(g, S (List.length others))].
Proof.
  intros Hpre Hg Tg Tp Ts To.
  assert (Hrows : Forall (Forall text_cell) (group_rows g p s others)).
  { apply List.Forall_cons; [forall_list|].
    apply List.Forall_forall. intros cells Hc.
    apply List.in_map_iff in Hc as (o & <- & Ho).
    rewrite List.Forall_forall in To. destruct (To o Ho). forall_list. }
  assert (Hplain : Forall (Forall plain) (group_rows g p s others)).
  { eapply Forall_impl; [exact Hrows|]. intros cells Hc.
    eapply Forall_impl; [exact Hc|]. now intros c [[Hp _] _]. }
  split.
  - rewrite load_hierarchy_unfold, (search_table_render pre post _ Hpre Hplain).
    f_equal. unfold _extract_rows.
    rewrite (findall_tr_render_table _ Hplain).
    unfold group_rows, extract_loop. cbn [map fold_left].
    rewrite (row_step_three None [] _ g p s).
    2:{ apply cleaned_cells_render. forall_list; [apply Tg|apply Tp|apply Ts]. }
    rewrite row_repo_path_text by forall_list.
    fold (extract_loop
            (Some g, [] ++ [mkProductRecord (or_else (Some g) ungrouped) p s None])
            (map render_cells (map (fun o => [fst o; snd o]) others))).
    rewrite (extract_loop_two_cells g _ Hg).
    2:{ apply List.Forall_forall. intros row Hrow.
        apply List.in_map_iff in Hrow as (cells & <- & Hc).
        apply List.in_map_iff in Hc as (o & <- & Ho).
        rewrite List.Forall_forall in To. destruct (To o Ho) as [[C1 _] [C2 _]].
        rewrite cleaned_cells_render by forall_list. reflexivity. }
    cbn [snd app]. simpl or_else.
    destruct (String.eqb_spec g "") as [|_]; [contradiction|].
    cbn [fold_left]. unfold hierarchy_add at 2. cbn [PyDict.get PyDict.set default app group].
    rewrite fold_hierarchy_same_group.
    + unfold group_records. f_equal. f_equal. cbn [app]. f_equal.
      rewrite !List.map_map. apply List.map_ext_in. intros o Ho.
      rewrite List.Forall_forall in To. destruct (To o Ho) as [T1 T2].
      unfold two_cell_record.
      rewrite cleaned_cells_render by (forall_list; [apply T1|apply T2]).
      rewrite row_repo_path_text by forall_list.
      reflexivity.
    + apply List.Forall_forall. intros r Hr.
      apply List.in_map_iff in Hr as (row & <- & _). reflexivity.
  - unfold list_groups, group_records. simpl.
    rewrite String.eqb_refl. simpl. now rewrite length_map.
Qed.

Lemma load_hierarchy_one_group_witness :
  load_hierarchy
    ("# Catalog " +:+
     render_table (group_rows "Compute" "Elastic Cloud Server" "ECS"
                     [("Bare Metal Server", "BMS"); ("Image Management", "IMS")])
     +:+ " end")
  = Return [("Compute",
             [mkProductRecord "Compute" "Elastic Cloud Server" "ECS" None;
              mkProductRecord "Compute" "Bare Metal Server" "BMS" None;
              mkProductRecord "Compute" "Image Management" "IMS" None])].
Proof.
  apply (load_hierarchy_one_group "# Catalog " " end" "Compute" "Elastic Cloud Server"
           "ECS" [("Bare Metal Server", "BMS"); ("Image Management", "IMS")]).
  - reflexivity.
  - discriminate.
  - repeat split.
  - repeat split.
  - repeat split.
  - repeat constructor.
Defined.

(** * Links, header rows, counts and effects *)

Lemma span_spec (f : ascii -> bool) (s a b : string) :
  Text.span f s = (a, b) ->
  s = a +:+ b
  /\ (forall c, has_char c a = true -> f c = true)
  /\ match b with
     | EmptyString => True
     | String x _ => f x = false
     end.
Proof.
  revert a b. induction s as [|x s IH]; intros a b; simpl.
  - intros [= <- <-]. repeat split. intros c H. discriminate H.
  - destruct (f x) eqn:E.
    + destruct (Text.span f s) as [a' b'] eqn:F. intros [= <- <-].
      destruct (IH a' b' eq_refl) as (-> & Ha & Hb).
      split; [reflexivity|]. split; [|exact Hb].
      intros c H. simpl in H. apply orb_true_iff in H as [H | H].
      * apply Ascii.eqb_eq in H. now subst c.
      * now apply Ha.
    + intros [= <- <-]. repeat split; [|exact E]. intros c H. discriminate H.
Qed.

Lemma quoted_run_spec (s run : string) :
  Re.quoted_run s = Some run ->
  run <> ""
  /\ has_char Text.dquote run = false
  /\ exists post, s = run +:+ String Text.dquote post.
Proof.
  unfold Re.quoted_run.
  destruct (Text.span (fun c => negb (Ascii.eqb c Text.dquote)) s) as [a b] eqn:E.
  apply span_spec in E as (-> & Ha & Hb).
  destruct b as [|x post]; [discriminate|].
  destruct (String.eqb_spec a "") as [|Hne]; [discriminate|].
  intros [= <-]. split; [exact Hne|]. split.
  - destruct (has_char Text.dquote a) eqn:F; [|reflexivity].
    apply Ha in F. discriminate F.
  - exists post. apply negb_false_iff, Ascii.eqb_eq in Hb. now subst x.
Qed.

Lemma search_href_spec (row href : string) :
  Re.search_href row = Some href ->
  href <> ""
  /\ has_char Text.dquote href = false
  /\ exists pre post,
       row = pre +:+ "href=" +:+ String Text.dquote (href +:+ String Text.dquote post).
Proof.
  induction row as [|x row IH].
  - cbn [Re.search_href]. simpl. discriminate.
  - cbn [Re.search_href].
    destruct (String.prefix ("href=" +:+ String Text.dquote "") (String x row)) eqn:P.
    + destruct (Re.quoted_run (Text.drop_str 6 (String x row))) as [run|] eqn:Q.
      * intros [= <-]. apply quoted_run_spec in Q as (Hne & Hq & post & Q).
        split; [exact Hne|]. split; [exact Hq|].
        exists EmptyString, post. apply prefix_split in P.
        rewrite P at 1. change (String.length ("href=" +:+ String Text.dquote "")) with 6.
        rewrite Q. reflexivity.
      * intros H. destruct (IH H) as (Hne & Hq & pre & post & ->).
        split; [exact Hne|]. split; [exact Hq|]. now exists (String x pre), post.
    + intros H. destruct (IH H) as (Hne & Hq & pre & post & ->).
      split; [exact Hne|]. split; [exact Hq|]. now exists (String x pre), post.
Qed.

(** X23.  A repository path comes from a quoted link target of the row
    and is what follows the marker in it: the row reads [href=], a double
    quote, a text, the marker, the path, a double quote, and the path
    holds no double quote. *)
Theorem row_repo_path_sound (row path : string) :
  row_repo_path row = Some path ->
  has_char Text.dquote path = false
  /\ exists pre before post,
       row = pre +:+ "href="
             +:+ String Text.dquote (before +:+ marker +:+ path +:+ String Text.dquote post).
Proof.
  unfold row_repo_path.
  destruct (Re.search_href row) as [href|] eqn:E; [|discriminate].
  destruct (Text.find_sub marker href) as [[before after]|] eqn:F; [|discriminate].
  intros [= <-]. apply search_href_spec in E as (_ & Hq & pre & post & ->).
  apply find_sub_Some in F. subst href.
  rewrite !has_char_append in Hq. apply orb_false_iff in Hq as [_ Hq].
  apply orb_false_iff in Hq as [_ Hq]. split; [exact Hq|].
  exists pre, before, post. now rewrite !append_assoc.
Qed.

Lemma row_repo_path_sound_witness :
  has_char Text.dquote "srv/mcp_server_obs" = false
  /\ exists pre before post,
       "<td><a href=" +:+ String Text.dquote
          ("https://host/mcp-server/tree/master-dev/srv/mcp_server_obs"
           +:+ String Text.dquote ">OBS</a></td>")
       = pre +:+ "href="
         +:+ String Text.dquote
               (before +:+ marker +:+ "srv/mcp_server_obs" +:+ String Text.dquote post).
Proof.
  apply (row_repo_path_sound
           ("<td><a href=" +:+ String Text.dquote
              ("https://host/mcp-server/tree/master-dev/srv/mcp_server_obs"
               +:+ String Text.dquote ">OBS</a></td>"))
           "srv/mcp_server_obs").
  reflexivity.
Defined.

Lemma td_open_prefix (s : string) :
  String.prefix "<td" s = false -> Re.td_open s = None.
Proof. unfold Re.td_open. now intros ->. Qed.

Lemma findall_td_absent (fuel : nat) (s : string) :
  Text.contains "<td" s = false -> Re.findall_td_from fuel s = [].
Proof.
  unfold Text.contains. revert s. induction fuel as [|fuel IH]; intros s H; [reflexivity|].
  destruct s as [|x t]; [reflexivity|].
  rewrite find_sub_cons in H.
  destruct (String.prefix "<td" (String x t)) eqn:P; [discriminate|].
  cbn [Re.findall_td_from]. rewrite (td_open_prefix _ P). apply IH.
  now destruct (Text.find_sub "<td" t) as [[? ?]|].
Qed.

(** X24.  A row block without any [<td], a header row for one, is passed
    over: it gives no record and leaves the current group as it is. *)
Theorem row_step_without_td (st : option string * list ProductRecord) (row : string) :
  Text.contains "<td" row = false -> row_step st row = st.
Proof.
  intros H. unfold row_step. destruct st as [cg acc].
  unfold Re.findall_td. now rewrite findall_td_absent.
Qed.

Lemma row_step_without_td_witness :
  row_step (Some "Compute", []) "<th>Group</th><th>Product</th><th>Short</th>"
  = (Some "Compute", []).
Proof.
  apply row_step_without_td. reflexivity.
Defined.

Lemma total_products_add (h : list (string * list ProductRecord)) (item : ProductRecord) :
  total_products (hierarchy_add h item) = S (total_products h).
Proof.
  unfold total_products, hierarchy_add. generalize (group item) as k. intros k.
  induction h as [|[k0 l0] h IH]; simpl; [reflexivity|].
  destruct (String.eqb k0 k); simpl.
  - rewrite length_app. simpl. lia.
  - rewrite IH. lia.
Qed.

Lemma total_products_fold (items : list ProductRecord)
  (h : list (string * list ProductRecord)) :
  total_products (fold_left hierarchy_add items h)
  = total_products h + List.length items.
Proof.
  revert h. induction items as [|item items IH]; intros h; simpl; [lia|].
  rewrite IH, total_products_add. lia.
Qed.

Lemma bucket_lengths (h : list (string * list ProductRecord)) :
  NoDup (PyDict.keys h) ->
  map (fun g => List.length (default [] (PyDict.get g h))) (PyDict.keys h)
  = map (fun kv => List.length (snd kv)) h.
Proof.
  induction h as [|[k0 l0] h IH]; intros H; [reflexivity|].
  cbn [PyDict.keys map fst] in *. apply NoDup_cons in H as [Hin Hd].
  cbn [PyDict.get]. rewrite String.eqb_refl. cbn [default snd]. f_equal.
  rewrite <- (IH Hd). apply List.map_ext_in. intros g Hg.
  destruct (String.eqb_spec k0 g) as [->|_]; [|reflexivity].
  exfalso. apply Hin. now apply list_elem_of_In.
Qed.

Lemma list_sum_perm (l1 l2 : list nat) :
  Permutation l1 l2 -> list_sum l1 = list_sum l2.
Proof.
  induction 1; simpl; lia.
Qed.

(** X25.  The numbers [list_groups] prints add up to the number of records
    parsed: every record is counted, each in one group. *)
Theorem list_groups_total (content table : string)
  (hierarchy : list (string * list ProductRecord)) :
  Re.search_table content = Some table ->
  load_hierarchy content = Return hierarchy ->
  list_sum (map snd (list_groups hierarchy)) = List.length (_extract_rows table).
Proof.
  intros Ht. rewrite load_hierarchy_unfold, Ht. intros [= <-].
  set (h := fold_left hierarchy_add (_extract_rows table) []).
  assert (Hn : NoDup (PyDict.keys h)) by (apply fold_hierarchy_NoDup, NoDup_nil_2).
  unfold list_groups. rewrite List.map_map. cbn [snd].
  rewrite (list_sum_perm _ (map (fun g => List.length (default [] (PyDict.get g h)))
                              (PyDict.keys h))).
  - rewrite (bucket_lengths h Hn).
    change (total_products h = List.length (_extract_rows table)).
    unfold h. now rewrite total_products_fold.
  - apply Permutation_map, sorted_perm.
Qed.

Lemma list_groups_total_witness :
  list_sum (map snd (list_groups [("Compute", _extract_rows scenario_A_table)])) = 3.
Proof.
  apply (list_groups_total scenario_A_table scenario_A_table
           [("Compute", _extract_rows scenario_A_table)]); reflexivity.
Defined.

Lemma mcp_collect_main_trace
  (session : string -> list string -> session_outcome)
  (command : string) (args : list string) (output : string) (w : world) :
  trace (snd (McpCollect.main session command args output w)) = trace w
  \/ trace (snd (McpCollect.main session command args output w))
     = trace w ++ [Wrote output].
Proof.
  unfold McpCollect.main.
  destruct (get_server_schemas session command (Some args)) as [schemas|e];
    [|now left].
  destruct (PyDict.nonempty schemas); [now right | now left].
Qed.

(** X26.  One run of [main] starts at most one process and writes at most
    once, the output file and only after the process is started: the
    trace grows by nothing, by the start alone, or by the start and the
    write. *)
Theorem main_trace (lower : string -> string)
  (session : string -> list string -> session_outcome)
  (executable mcp_collect content : string) (args : Args) (w : world) :
  exists events,
    trace (snd (HierarchyQuery.main session executable mcp_collect lower content args w))
    = trace w ++ events
    /\ (events = []
        \/ (exists cmd, events = [Spawned cmd])
        \/ (exists cmd, events = [Spawned cmd; Wrote (arg_output args)])).
Proof.
  assert (Hnone : exists events,
             trace w = trace w ++ events
             /\ (events = []
                 \/ (exists cmd, events = [Spawned cmd])
                 \/ (exists cmd, events = [Spawned cmd; Wrote (arg_output args)]))).
  { exists []. split; [now rewrite app_nil_r | now left]. }
  unfold HierarchyQuery.main.
  destruct (load_hierarchy content) as [hierarchy|e]; [|exact Hnone].
  destruct (arg_list_groups args); [exact Hnone|].
  destruct (truthy (arg_group args)); simpl; [|exact Hnone].
  destruct (truthy (arg_product args)); simpl.
  - destruct (find_product lower hierarchy (default "" (arg_group args))
                (default "" (arg_product args))) as [record|e]; [|exact Hnone].
    destruct (arg_collect_api args); [|exact Hnone].
    unfold collect_api.
    destruct (infer_server_command record) as [command|]; [|exact Hnone].
    destruct (String.eqb command ""); [exact Hnone|].
    unfold run_checked.
    match goal with
    | |- context [McpCollect.main ?s ?c ?a ?o ?w1] =>
        destruct (mcp_collect_main_trace s c a o w1) as [H | H];
        destruct (McpCollect.main s c a o w1) as [[u|e] w2]; simpl in *
    end; rewrite H; eexists; (split; [try reflexivity; now rewrite <- app_assoc|]);
      eauto.
  - destruct (list_products hierarchy (default "" (arg_group args))); exact Hnone.
Qed.

(** * White space and digits beyond ASCII *)

(** An ideographic space (U+3000) and a no-break space (U+00A0) are
    stripped like any white space; a zero width space (U+200B) is not. *)
Example strip_unicode_spaces :
  Text.strip "　 a b 　" = "a b"
  /\ Text.strip "　" = ""
  /\ Text.strip "​a" = "​a".
Proof. repeat split; reflexivity. Qed.

(** A group cell that holds an ideographic space only is an empty group
    cell: the fallback group, and the two-cell row after it skipped. *)
Example extract_rows_ideographic_group_cell :
  _extract_rows
    "<table><tr><td>　</td><td>A</td><td>a</td></tr><tr><td>B</td><td>b</td></tr></table>"
  = [mkProductRecord "未分组" "A" "a" None].
Proof. reflexivity. Qed.

(** The opening tag of a cell may separate [rowspan] by an ideographic
    space and give its number in full-width digits. *)
Example td_open_unicode :
  Re.td_open ("<td　rowspan=" +:+ String Text.dquote "２"
              +:+ String Text.dquote ">x</td>")
  = Some "x</td>".
Proof. reflexivity. Qed.
